(** * socks5man: the socks5 record store and its selection query

    A shallow embedding of [socks5man/database.py]: the [Socks5] row, the
    [Database] operations and the selection done by [find_socks5].

    Modelling choices.
    - The table [socks5s] is the list of its rows in scan (rowid) order.
      The primary key constraint on [id] is the predicate [primary_key].
    - A [DateTime] column is an integer time stamp; [datetime.now()] is a
      reading supplied by the caller of the model.
    - A [Float] column is a rational number ([Q]); only comparisons and the
      test against zero are used by the code.
    - A query object is the list of rows it would return; [filter_by],
      [filter], [order_by] and [limit] are list transformers.
    - NULL follows SQL: a comparison with NULL does not hold, and NULL is
      the smallest value for [ORDER BY].
    - [limit] is a number of rows. A row inserted without a key gets a key
      above every key of the table, the rule of the engine for an integer
      primary key.
    - The engine is taken to be available: the [except SQLAlchemyError]
      branches are reached only for the constraint the schema itself
      declares (the primary key, in [bulk_add_socks5]).
    - The definitions named after the methods that write give the table
      that the statements of the method leave when they are executed.
      [Method] has, for [remove_socks5], [set_connect_time] and
      [set_approx_bandwidth], the call as the caller sees it: the value
      returned, the [SQLAlchemyError] that is caught, and the
      [OverflowError] that is not. *)

From Stdlib Require Import ZArith QArith List String Bool Lia.
From Stdlib Require Import Sorted Permutation.
Import ListNotations.

Local Open Scope Z_scope.

(** ** The row *)

Definition datetime := Z.

Record Socks5 := mkSocks5 {
  id : Z;
  host : string;
  port : Z;
  country : string;
  country_code : string;
  city : option string;
  username : option string;
  password : option string;
  added_on : datetime;
  last_use : option datetime;
  last_check : option datetime;
  operational : bool;
  bandwidth : option Q;
  connect_time : option Q;
  description : option string
}.

(** Attribute assignments [s.last_use = ...] and the like. *)

Definition with_last_use (t : option datetime) (s : Socks5) : Socks5 :=
  mkSocks5 (id s) (host s) (port s) (country s) (country_code s) (city s)
    (username s) (password s) (added_on s) t (last_check s)
    (operational s) (bandwidth s) (connect_time s) (description s).

Definition with_health (b : bool) (t : option datetime) (s : Socks5) : Socks5 :=
  mkSocks5 (id s) (host s) (port s) (country s) (country_code s) (city s)
    (username s) (password s) (added_on s) (last_use s) t
    b (bandwidth s) (connect_time s) (description s).

Definition with_connect_time (v : option Q) (s : Socks5) : Socks5 :=
  mkSocks5 (id s) (host s) (port s) (country s) (country_code s) (city s)
    (username s) (password s) (added_on s) (last_use s) (last_check s)
    (operational s) (bandwidth s) v (description s).

Definition with_bandwidth (v : option Q) (s : Socks5) : Socks5 :=
  mkSocks5 (id s) (host s) (port s) (country s) (country_code s) (city s)
    (username s) (password s) (added_on s) (last_use s) (last_check s)
    (operational s) v (connect_time s) (description s).

(** Two rows that agree on every column but [last_use]. *)
Definition same_but_last_use (r s : Socks5) : Prop :=
  r = with_last_use (last_use r) s.

(** ** The table *)

Definition Database := list Socks5.

Definition ids (db : Database) : list Z := map id db.

(** [id = Column(Integer(), primary_key=True)]. *)
Definition primary_key (db : Database) : Prop := NoDup (ids db).

(** The key given to a row inserted without one: one more than the largest
    key in the table, 1 in an empty table. This is the rule of the engine
    below its largest key, [2^63 - 1]; at that key the engine draws an
    unused key at random, which is not modelled. *)
Definition next_id (db : Database) : Z :=
  match ids db with
  | [] => 1
  | i :: rest => fold_left Z.max rest i + 1
  end.

(** [session.query(Socks5).get(socks5_id)]. *)
Definition get (db : Database) (i : Z) : option Socks5 :=
  find (fun r => id r =? i) db.

(** [UPDATE socks5s SET ... WHERE id = i], the column change given as [f]. *)
Definition update_where_id (i : Z) (f : Socks5 -> Socks5) (db : Database)
  : Database :=
  map (fun r => if id r =? i then f r else r) db.

(** ** Python truth values of the filter arguments

    [if country:] is false for [None] and for the empty string;
    [if min_mbps_down:] is false for [None] and for zero. *)

Definition truthy_str (a : option string) : bool :=
  match a with
  | Some v => negb (v =? "")%string
  | None => false
  end.

Definition truthy_float (a : option Q) : bool :=
  match a with
  | Some v => negb (Qeq_bool v 0)
  | None => false
  end.

(** ** Column predicates *)

Definition country_is (v : string) (r : Socks5) : bool :=
  (country r =? v)%string.

Definition country_code_is (v : string) (r : Socks5) : bool :=
  (country_code r =? v)%string.

Definition city_is (v : string) (r : Socks5) : bool :=
  match city r with
  | Some c => (c =? v)%string
  | None => false
  end.

(** [Socks5.bandwidth >= min_mbps_down]. *)
Definition bandwidth_ge (v : Q) (r : Socks5) : bool :=
  match bandwidth r with
  | Some b => Qle_bool v b
  | None => false
  end.

(** [Socks5.connect_time <= max_connect_time]. *)
Definition connect_time_le (v : Q) (r : Socks5) : bool :=
  match connect_time r with
  | Some c => Qle_bool c v
  | None => false
  end.

(** [if arg: q = q.filter_by(col=arg)]. *)
Definition filter_if_str (a : option string) (p : string -> Socks5 -> bool)
    (q : list Socks5) : list Socks5 :=
  match a with
  | Some v => if truthy_str a then filter (p v) q else q
  | None => q
  end.

(** [if arg: q = q.filter(col <op> arg)]. *)
Definition filter_if_float (a : option Q) (p : Q -> Socks5 -> bool)
    (q : list Socks5) : list Socks5 :=
  match a with
  | Some v => if truthy_float a then filter (p v) q else q
  | None => q
  end.

(** ** [list_socks5] *)

Definition list_socks5 (db : Database) (country country_code city : option string)
    (limit : nat) : list Socks5 :=
  let socks := db in
  let socks := filter_if_str country country_is socks in
  let socks := filter_if_str country_code country_code_is socks in
  let socks := filter_if_str city city_is socks in
  firstn limit socks.

(** ** [view_socks5] *)

Definition view_socks5 (db : Database) (socks5_id : Z) : option Socks5 :=
  get db socks5_id.

(** ** [order_by(Socks5.last_use.asc(), Socks5.last_check.desc())] *)

(** Comparison of a nullable time stamp, NULL below every value. *)
Definition compare_nullable (a b : option datetime) : comparison :=
  match a, b with
  | None, None => Eq
  | None, Some _ => Lt
  | Some _, None => Gt
  | Some x, Some y => x ?= y
  end.

(** The two sort keys: [last_use] ascending, then [last_check] descending. *)
Definition compare_rows (r1 r2 : Socks5) : comparison :=
  match compare_nullable (last_use r1) (last_use r2) with
  | Eq => compare_nullable (last_check r2) (last_check r1)
  | c => c
  end.

Definition precedes (r1 r2 : Socks5) : bool :=
  match compare_rows r1 r2 with
  | Gt => false
  | _ => true
  end.

(** Rows with equal keys keep their scan order. *)
Fixpoint insert_row (r : Socks5) (sorted : list Socks5) : list Socks5 :=
  match sorted with
  | [] => [r]
  | s :: rest => if precedes r s then r :: s :: rest else s :: insert_row r rest
  end.

Fixpoint order_by (q : list Socks5) : list Socks5 :=
  match q with
  | [] => []
  | r :: rest => insert_row r (order_by rest)
  end.

(** ** [find_socks5] *)

(** The filters of lines 171-181, in the order they are applied. *)
Definition candidates (db : Database) (country country_code city : option string)
    (min_mbps_down max_connect_time : option Q) : list Socks5 :=
  let socks5 := db in
  let socks5 := filter operational socks5 in
  let socks5 := filter_if_str country country_is socks5 in
  let socks5 := filter_if_str country_code country_code_is socks5 in
  let socks5 := filter_if_str city city_is socks5 in
  let socks5 := filter_if_float min_mbps_down bandwidth_ge socks5 in
  let socks5 := filter_if_float max_connect_time connect_time_le socks5 in
  socks5.

(** The query of lines 183-185. *)
Definition select_socks5 (db : Database) (country country_code city : option string)
    (min_mbps_down max_connect_time : option Q) (limit : nat) : list Socks5 :=
  firstn limit
    (order_by (candidates db country country_code city min_mbps_down max_connect_time)).

(** [for s in result: s.last_use = datetime.now()]; [clock k] is the
    reading taken for the [k]-th row of the result. *)
Fixpoint stamp (clock : nat -> datetime) (k : nat) (result : list Socks5)
  : list Socks5 :=
  match result with
  | [] => []
  | s :: rest => with_last_use (Some (clock k)) s :: stamp clock (S k) rest
  end.

(** [session.commit()]: one UPDATE of [last_use] by primary key for each
    changed object. *)
Definition commit (objs : list Socks5) (db : Database) : Database :=
  fold_left
    (fun d s => update_where_id (id s) (with_last_use (last_use s)) d) objs db.

(** [session.refresh(s)]: the columns of [s] are read again by primary key. *)
Definition refresh (db : Database) (s : Socks5) : Socks5 :=
  match get db (id s) with
  | Some r => r
  | None => s
  end.

Definition is_empty {A : Type} (l : list A) : bool :=
  match l with
  | [] => true
  | _ :: _ => false
  end.

Definition find_socks5 (clock : nat -> datetime) (db : Database)
    (country country_code city : option string)
    (min_mbps_down max_connect_time : option Q) (update_usage : bool)
    (limit : nat) : list Socks5 * Database :=
  let result :=
    select_socks5 db country country_code city min_mbps_down max_connect_time limit in
  if negb (is_empty result) && update_usage then
    let result := stamp clock 0 result in
    let db := commit result db in
    (map (refresh db) result, db)
  else
    (result, db).

(** ** Mutations *)

Definition add_socks5 (now : datetime) (db : Database) (host : string) (port : Z)
    (country country_code : string) (operational : bool)
    (city username password description : option string) : Database * bool :=
  let socks5 :=
    mkSocks5 (next_id db) host port country country_code city username password
      now None None operational None None description in
  (db ++ [socks5], true).

(** [session.query(Socks5).filter_by(id=id).delete()], committed, and the
    [return True] that follows. *)
Definition remove_socks5 (db : Database) (i : Z) : Database * bool :=
  (filter (fun r => negb (id r =? i)) db, true).

(** A row inserted under its own key takes its place in the scan order,
    which is the order of the keys. *)
Fixpoint insert_by_id (r : Socks5) (db : Database) : Database :=
  match db with
  | [] => [r]
  | s :: rest =>
      if id r <? id s then r :: s :: rest else s :: insert_by_id r rest
  end.

Definition insert_rows (rows : list Socks5) (db : Database) : Database :=
  fold_left (fun d r => insert_by_id r d) rows db.

(** One INSERT of all the given rows; a key that is already taken, or given
    twice, violates the primary key and nothing is inserted. With an empty
    list the statement is executed without values, for a row of defaults,
    which the [nullable=False] columns refuse. *)
Definition fresh_keys (db : Database) (rows : list Socks5) : bool :=
  forallb (fun r => negb (existsb (Z.eqb (id r)) (ids db))) rows.

Fixpoint distinct_keys (rows : list Socks5) : bool :=
  match rows with
  | [] => true
  | r :: rest => negb (existsb (Z.eqb (id r)) (ids rest)) && distinct_keys rest
  end.

Definition bulk_add_socks5 (db : Database) (socks5_dict_list : list Socks5)
  : Database * bool :=
  match socks5_dict_list with
  | [] => (db, false)
  | _ :: _ =>
      if fresh_keys db socks5_dict_list && distinct_keys socks5_dict_list
      then (insert_rows socks5_dict_list db, true)
      else (db, false)
  end.

Definition set_operational (now : datetime) (db : Database) (socks5_id : Z)
    (operational : bool) : Database :=
  match get db socks5_id with
  | None => db
  | Some _ => update_where_id socks5_id (with_health operational (Some now)) db
  end.

(** The UPDATE of lines 238-241, committed. *)
Definition set_connect_time (db : Database) (socks5_id : Z) (connect_time : Q)
  : Database :=
  update_where_id socks5_id (with_connect_time (Some connect_time)) db.

(** The UPDATE of lines 252-255, committed. *)
Definition set_approx_bandwidth (db : Database) (socks5_id : Z) (bandwidth : Q)
  : Database :=
  update_where_id socks5_id (with_bandwidth (Some bandwidth)) db.

(** ** The methods as the caller sees them *)

(** The exceptions that leave a method: the methods catch
    [SQLAlchemyError] and nothing else. *)
Inductive exception : Type :=
| OverflowError.

(** What the engine does with the statements of a call once their
    parameters are bound: it executes them, or it raises an
    [SQLAlchemyError]. *)
Inductive engine : Type :=
| Executes
| SQLAlchemyError.

(** What a call ends with, and the table it leaves: a value that is
    returned, or an exception that is raised. *)
Inductive outcome (A : Type) : Type :=
| Returned (value : A) (db : Database)
| Raised (e : exception) (db : Database).

Arguments Returned {A} value db.
Arguments Raised {A} e db.

(** An integer that can be bound to a parameter of a statement: the
    driver takes signed 64-bit integers and raises [OverflowError] for any
    other. *)
Definition sqlite_integer (i : Z) : bool :=
  (- 2 ^ 63 <=? i) && (i <? 2 ^ 63).

Module Method.

(** Lines 106-117: [OverflowError] is not caught; [SQLAlchemyError] is,
    and gives [False] with nothing committed. *)
Definition remove_socks5 (e : engine) (db : Database) (i : Z) : outcome bool :=
  if sqlite_integer i then
    match e with
    | Executes => Returned (snd (remove_socks5 db i)) (fst (remove_socks5 db i))
    | SQLAlchemyError => Returned false db
    end
  else Raised OverflowError db.

(** Lines 233-245: the method returns nothing; [SQLAlchemyError] is
    logged, with nothing committed. *)
Definition set_connect_time (e : engine) (db : Database) (socks5_id : Z)
    (connect_time : Q) : outcome unit :=
  if sqlite_integer socks5_id then
    match e with
    | Executes => Returned tt (set_connect_time db socks5_id connect_time)
    | SQLAlchemyError => Returned tt db
    end
  else Raised OverflowError db.

(** Lines 247-259. *)
Definition set_approx_bandwidth (e : engine) (db : Database) (socks5_id : Z)
    (bandwidth : Q) : outcome unit :=
  if sqlite_integer socks5_id then
    match e with
    | Executes => Returned tt (set_approx_bandwidth db socks5_id bandwidth)
    | SQLAlchemyError => Returned tt db
    end
  else Raised OverflowError db.

End Method.

(** ** Calls and reachable tables *)

Inductive call : Type :=
| AddSocks5 (now : datetime) (host : string) (port : Z)
    (country country_code : string) (operational : bool)
    (city username password description : option string)
| RemoveSocks5 (i : Z)
| ListSocks5 (country country_code city : option string) (limit : nat)
| ViewSocks5 (i : Z)
| FindSocks5 (clock : nat -> datetime) (country country_code city : option string)
    (min_mbps_down max_connect_time : option Q) (update_usage : bool) (limit : nat)
| BulkAddSocks5 (rows : list Socks5)
| SetOperational (now : datetime) (i : Z) (operational : bool)
| SetConnectTime (i : Z) (connect_time : Q)
| SetApproxBandwidth (i : Z) (bandwidth : Q).

(** The table a call leaves behind. *)
Definition exec (c : call) (db : Database) : Database :=
  match c with
  | AddSocks5 now h p co cc op ci u pw d =>
      fst (add_socks5 now db h p co cc op ci u pw d)
  | RemoveSocks5 i => fst (remove_socks5 db i)
  | ListSocks5 _ _ _ _ => db
  | ViewSocks5 _ => db
  | FindSocks5 clock co cc ci mn mx uu lim =>
      snd (find_socks5 clock db co cc ci mn mx uu lim)
  | BulkAddSocks5 rows => fst (bulk_add_socks5 db rows)
  | SetOperational now i b => set_operational now db i b
  | SetConnectTime i v => set_connect_time db i v
  | SetApproxBandwidth i v => set_approx_bandwidth db i v
  end.

(** A table is reachable when calls lead to it from the empty table. *)
Inductive reachable : Database -> Prop :=
| reachable_empty : reachable []
| reachable_exec c db : reachable db -> reachable (exec c db).

(** [n] successive calls of [find_socks5] with the default filters,
    [limit=1] and [update_usage=True]; the rows returned, in call order. *)
Fixpoint rotate (clocks : list (nat -> datetime)) (db : Database)
  : list Socks5 * Database :=
  match clocks with
  | [] => ([], db)
  | clock :: later =>
      let '(found, db1) := find_socks5 clock db None None None None None true 1 in
      let '(more, db2) := rotate later db1 in
      (found ++ more, db2)
  end.

(** [n] successive identical calls with [update_usage=False]. *)
Fixpoint repeat_find (n : nat) (clock : nat -> datetime) (db : Database)
    (country country_code city : option string)
    (min_mbps_down max_connect_time : option Q) (limit : nat)
  : list (list Socks5) * Database :=
  match n with
  | O => ([], db)
  | S m =>
      let '(found, db1) :=
        find_socks5 clock db country country_code city
          min_mbps_down max_connect_time false limit in
      let '(more, db2) :=
        repeat_find m clock db1 country country_code city
          min_mbps_down max_connect_time limit in
      (found :: more, db2)
  end.

(** ** The spec's wording of the selection order

    [lastUse] ascending with null before any value, ties broken by
    [lastCheck] descending. *)

Definition earlier (a b : option datetime) : Prop :=
  match a, b with
  | None, Some _ => True
  | Some x, Some y => x < y
  | _, None => False
  end.

Definition selection_order (r1 r2 : Socks5) : Prop :=
  earlier (last_use r1) (last_use r2) \/
  (last_use r1 = last_use r2 /\ ~ earlier (last_check r1) (last_check r2)).

(** What a filter argument asks of a row: nothing when the argument is
    [None], empty or zero. *)
Definition asks_str (a : option string) (p : string -> Socks5 -> bool)
    (r : Socks5) : bool :=
  match a with
  | Some v => if truthy_str a then p v r else true
  | None => true
  end.

Definition asks_float (a : option Q) (p : Q -> Socks5 -> bool)
    (r : Socks5) : bool :=
  match a with
  | Some v => if truthy_float a then p v r else true
  | None => true
  end.

(** The filter predicate of [find_socks5] as one boolean. *)
Definition passes (country country_code city : option string)
    (min_mbps_down max_connect_time : option Q) (r : Socks5) : bool :=
  operational r
  && asks_str country country_is r
  && asks_str country_code country_code_is r
  && asks_str city city_is r
  && asks_float min_mbps_down bandwidth_ge r
  && asks_float max_connect_time connect_time_le r.

(** ** Predicates used to state the properties *)

(** The equality and range predicates for the arguments that are given,
    in the words of the spec: [None] is the only argument that asks for
    nothing. *)
Definition provided_equalities (co cc ci : option string) (r : Socks5) : Prop :=
  (forall v, co = Some v -> country r = v) /\
  (forall v, cc = Some v -> country_code r = v) /\
  (forall v, ci = Some v -> city r = Some v).

Definition provided_ranges (mn mx : option Q) (r : Socks5) : Prop :=
  (forall v, mn = Some v -> exists b, bandwidth r = Some b /\ (v <= b)%Q) /\
  (forall v, mx = Some v -> exists c, connect_time r = Some c /\ (c <= v)%Q).

(** The same predicates for the arguments the code takes as given: a
    string that is not empty, a number that is not zero. *)
Definition truthy_equalities (co cc ci : option string) (r : Socks5) : Prop :=
  (forall v, co = Some v -> v <> ""%string -> country r = v) /\
  (forall v, cc = Some v -> v <> ""%string -> country_code r = v) /\
  (forall v, ci = Some v -> v <> ""%string -> city r = Some v).

Definition truthy_ranges (mn mx : option Q) (r : Socks5) : Prop :=
  (forall v, mn = Some v -> ~ (v == 0)%Q ->
             exists b, bandwidth r = Some b /\ (v <= b)%Q) /\
  (forall v, mx = Some v -> ~ (v == 0)%Q ->
             exists c, connect_time r = Some c /\ (c <= v)%Q).

(** [r'] has the columns of [r], [connect_time] left aside. *)
Definition same_but_connect_time (r r' : Socks5) : Prop :=
  id r' = id r /\ host r' = host r /\ port r' = port r /\
  country r' = country r /\ country_code r' = country_code r /\
  city r' = city r /\ username r' = username r /\ password r' = password r /\
  added_on r' = added_on r /\ last_use r' = last_use r /\
  last_check r' = last_check r /\ operational r' = operational r /\
  bandwidth r' = bandwidth r /\ description r' = description r.

(** [r'] has the columns of [r], [bandwidth] left aside. *)
Definition same_but_bandwidth (r r' : Socks5) : Prop :=
  id r' = id r /\ host r' = host r /\ port r' = port r /\
  country r' = country r /\ country_code r' = country_code r /\
  city r' = city r /\ username r' = username r /\ password r' = password r /\
  added_on r' = added_on r /\ last_use r' = last_use r /\
  last_check r' = last_check r /\ operational r' = operational r /\
  connect_time r' = connect_time r /\ description r' = description r.

(** ** Rotation: the rows not yet handed out

    [u] is the [last_use] that all rows have before the first call. *)

(** The rows that no call has stamped yet. *)
Definition unstamped (u : option datetime) (r : Socks5) : bool :=
  match compare_nullable (last_use r) u with
  | Eq => true
  | _ => false
  end.

Definition unused (u : option datetime) (db : Database) : list Socks5 :=
  filter (unstamped u) db.

(** What holds of the table between two calls. *)
Definition rotating (u : option datetime) (db : Database) : Prop :=
  primary_key db /\
  Forall (fun r => operational r = true /\
                   (last_use r = u \/ earlier u (last_use r))) db.

(** ** Sample data *)

(** A small table used to run the definitions. *)

Definition proxy_a : Socks5 :=
  mkSocks5 1 "1.2.3.4" 1080 "Germany" "DE" None None None
    10 None None true (Some (50 # 1)%Q) (Some (1 # 5)%Q) None.

Definition proxy_b : Socks5 :=
  mkSocks5 2 "5.6.7.8" 1080 "Germany" "DE" None None None
    11 None None true (Some (10 # 1)%Q) (Some (9 # 10)%Q) None.

Definition proxy_c : Socks5 :=
  mkSocks5 3 "9.9.9.9" 1080 "France" "FR" (Some "Paris"%string) None None
    12 None None false None None None.

Definition pool : Database := [proxy_a; proxy_b; proxy_c].

Definition tick (t : datetime) : nat -> datetime := fun k => t + Z.of_nat k.

Definition two_proxies : Database := [proxy_a; proxy_b].

(** A filter argument as the code takes it: [None] stands for [None], for
    the empty string and for zero. *)
Definition given_str (a : option string) : option string :=
  match a with
  | Some v => if (v =? "")%string then None else Some v
  | None => None
  end.

Definition given_float (a : option Q) : option Q :=
  match a with
  | Some v => if Qeq_bool v 0 then None else Some v
  | None => None
  end.

(** A clock that advances from one call to the next. *)
Definition advancing (clocks : list (nat -> datetime)) : Prop :=
  StronglySorted (fun c1 c2 : nat -> datetime => c1 0%nat < c2 0%nat) clocks.

(** ** [Socks5.to_dict] *)

(** The Python values held by the attributes of a row. *)
Inductive value : Type :=
| PyNone
| PyInt (n : Z)
| PyStr (s : string)
| PyBool (b : bool)
| PyFloat (q : Q)
| PyDateTime (t : datetime).

Definition nullable {A : Type} (f : A -> value) (a : option A) : value :=
  match a with
  | Some x => f x
  | None => PyNone
  end.

(** [column.name] for [column in self.__table__.columns], in the order in
    which the columns are declared. *)
Definition columns : list string :=
  ["id"; "host"; "port"; "country"; "country_code"; "city"; "username";
   "password"; "added_on"; "last_use"; "last_check"; "operational";
   "bandwidth"; "connect_time"; "description"]%string.

(** [getattr(self, column.name)] for each column. *)
Definition attributes (s : Socks5) : list (string * value) :=
  [("id", PyInt (id s));
   ("host", PyStr (host s));
   ("port", PyInt (port s));
   ("country", PyStr (country s));
   ("country_code", PyStr (country_code s));
   ("city", nullable PyStr (city s));
   ("username", nullable PyStr (username s));
   ("password", nullable PyStr (password s));
   ("added_on", PyDateTime (added_on s));
   ("last_use", nullable PyDateTime (last_use s));
   ("last_check", nullable PyDateTime (last_check s));
   ("operational", PyBool (operational s));
   ("bandwidth", nullable PyFloat (bandwidth s));
   ("connect_time", nullable PyFloat (connect_time s));
   ("description", nullable PyStr (description s))]%string.

(** [isinstance(value, datetime)] decides what is stored for a column;
    [strftime] is [value.strftime("%Y-%m-%d %H:%M:%S")]. *)
Definition exported (strftime : datetime -> string) (v : value) : value :=
  match v with
  | PyDateTime t => PyStr (strftime t)
  | _ => v
  end.

(** The dict is the list of its items in insertion order. *)
Definition to_dict (strftime : datetime -> string) (s : Socks5)
  : list (string * value) :=
  map (fun item : string * value => (fst item, exported strftime (snd item)))
      (attributes s).

Definition is_datetime (v : value) : bool :=
  match v with
  | PyDateTime _ => true
  | _ => false
  end.

(** ** More predicates used to state the properties *)

(** [r'] has the columns of [r], [operational] and [last_check] left aside. *)
Definition same_but_health (r r' : Socks5) : Prop :=
  id r' = id r /\ host r' = host r /\ port r' = port r /\
  country r' = country r /\ country_code r' = country_code r /\
  city r' = city r /\ username r' = username r /\ password r' = password r /\
  added_on r' = added_on r /\ last_use r' = last_use r /\
  bandwidth r' = bandwidth r /\ connect_time r' = connect_time r /\
  description r' = description r.

(** The columns that no method of [Database] writes after the insert. *)
Definition same_identity (r r' : Socks5) : Prop :=
  id r' = id r /\ host r' = host r /\ port r' = port r /\
  country r' = country r /\ country_code r' = country_code r /\
  city r' = city r /\ username r' = username r /\ password r' = password r /\
  added_on r' = added_on r /\ description r' = description r.

(** What [commit] does to one row: the [last_use] of each changed object
    with the key of the row is written to it, in turn. *)
Definition commit_row (objs : list Socks5) (r : Socks5) : Socks5 :=
  fold_left
    (fun r s => if id r =? id s then with_last_use (last_use s) r else r) objs r.

(** The calls that insert or delete rows. *)
Definition changes_keys (c : call) : bool :=
  match c with
  | AddSocks5 _ _ _ _ _ _ _ _ _ _ => true
  | RemoveSocks5 _ => true
  | BulkAddSocks5 _ => true
  | _ => false
  end.

(** * Properties *)

(** ** Rows and updates *)

Lemma id_with_last_use t s : id (with_last_use t s) = id s.
Proof. reflexivity. Qed.

Lemma with_last_use_twice t u s :
  with_last_use t (with_last_use u s) = with_last_use t s.
Proof. reflexivity. Qed.

Lemma with_last_use_same s : with_last_use (last_use s) s = s.
Proof. destruct s; reflexivity. Qed.

Lemma same_but_last_use_refl s : same_but_last_use s s.
Proof. unfold same_but_last_use. now rewrite with_last_use_same. Qed.

Lemma same_but_last_use_stamp t s : same_but_last_use (with_last_use t s) s.
Proof. reflexivity. Qed.

Lemma ids_update_where_id i f db :
  (forall r, id (f r) = id r) -> ids (update_where_id i f db) = ids db.
Proof.
  intros Hf. unfold ids, update_where_id. rewrite map_map.
  apply map_ext. intros r. destruct (id r =? i); auto.
Qed.

Lemma update_where_id_absent i f db :
  ~ In i (ids db) -> update_where_id i f db = db.
Proof.
  unfold update_where_id, ids. induction db as [|r db IH]; simpl; intros Hn.
  - reflexivity.
  - destruct (Z.eqb_spec (id r) i) as [E|E].
    + exfalso. apply Hn. now left.
    + f_equal. apply IH. intros Hin. apply Hn. now right.
Qed.

Lemma get_some db i r : get db i = Some r -> In r db /\ id r = i.
Proof.
  unfold get. intros H. apply find_some in H. destruct H as [Hin He].
  split; [assumption | now apply Z.eqb_eq].
Qed.

Lemma get_none db i : get db i = None <-> ~ In i (ids db).
Proof.
  unfold get, ids. induction db as [|r db IH]; simpl.
  - split; auto.
  - destruct (Z.eqb_spec (id r) i) as [E|E].
    + split; [discriminate | intros H; exfalso; apply H; now left].
    + rewrite IH. split.
      * intros H [H1|H1]; auto.
      * intros H H1. apply H. now right.
Qed.

(** Under the primary key, [get] by the key of a row returns that row. *)
Lemma get_in db r : primary_key db -> In r db -> get db (id r) = Some r.
Proof.
  unfold primary_key, get, ids. induction db as [|s db IH]; simpl; intros Hk Hin.
  - contradiction.
  - inversion Hk as [|? ? Hs Hk']; subst.
    destruct Hin as [->|Hin].
    + now rewrite Z.eqb_refl.
    + destruct (Z.eqb_spec (id s) (id r)) as [E|E].
      * exfalso. apply Hs. rewrite E. now apply in_map.
      * now apply IH.
Qed.

Lemma get_update_where_id db i j f :
  (forall r, id (f r) = id r) ->
  get (update_where_id i f db) j =
  option_map (fun r => if id r =? i then f r else r) (get db j).
Proof.
  intros Hf. unfold get, update_where_id.
  induction db as [|r db IH]; simpl; [reflexivity|].
  assert (E : id (if id r =? i then f r else r) = id r)
    by (destruct (id r =? i); auto).
  rewrite E. destruct (id r =? j); simpl; auto.
Qed.

(** ** Filters *)

Lemma filter_if_str_asks a p q : filter_if_str a p q = filter (asks_str a p) q.
Proof.
  unfold filter_if_str, asks_str. destruct a as [v|].
  - destruct (truthy_str (Some v)); [reflexivity|].
    symmetry. apply forallb_filter_id. now apply forallb_forall.
  - symmetry. apply forallb_filter_id. now apply forallb_forall.
Qed.

Lemma filter_if_float_asks a p q :
  filter_if_float a p q = filter (asks_float a p) q.
Proof.
  unfold filter_if_float, asks_float. destruct a as [v|].
  - destruct (truthy_float (Some v)); [reflexivity|].
    symmetry. apply forallb_filter_id. now apply forallb_forall.
  - symmetry. apply forallb_filter_id. now apply forallb_forall.
Qed.

Lemma filter_filter {A : Type} (p q : A -> bool) (l : list A) :
  filter q (filter p l) = filter (fun x => p x && q x) l.
Proof.
  induction l as [|x l IH]; simpl; [reflexivity|].
  destruct (p x); simpl; [destruct (q x)|]; now rewrite IH.
Qed.

Lemma candidates_filter db co cc ci mn mx :
  candidates db co cc ci mn mx = filter (passes co cc ci mn mx) db.
Proof.
  unfold candidates, passes.
  rewrite !filter_if_float_asks, !filter_if_str_asks, !filter_filter.
  apply filter_ext. intros r. now rewrite !andb_assoc.
Qed.

Lemma list_socks5_filter db co cc ci limit :
  list_socks5 db co cc ci limit =
  firstn limit
    (filter (fun r => asks_str co country_is r
                      && asks_str cc country_code_is r
                      && asks_str ci city_is r) db).
Proof.
  unfold list_socks5.
  rewrite !filter_if_str_asks, !filter_filter.
  f_equal. apply filter_ext. intros r. now rewrite !andb_assoc.
Qed.

Lemma in_firstn {A : Type} (n : nat) (l : list A) (x : A) :
  In x (firstn n l) -> In x l.
Proof.
  revert l. induction n as [|n IH]; intros [|y l]; simpl; try tauto.
  intros [H|H]; auto.
Qed.

(** ** The sort *)

Lemma compare_nullable_lt a b : compare_nullable a b = Lt <-> earlier a b.
Proof.
  destruct a as [x|], b as [y|]; simpl.
  - apply Z.compare_lt_iff.
  - split; [discriminate | contradiction].
  - split; [trivial | reflexivity].
  - split; [discriminate | contradiction].
Qed.

Lemma compare_nullable_eq a b : compare_nullable a b = Eq <-> a = b.
Proof.
  destruct a as [x|], b as [y|]; simpl.
  - rewrite Z.compare_eq_iff. split; [now intros -> | congruence].
  - split; discriminate.
  - split; discriminate.
  - split; reflexivity.
Qed.

Lemma compare_nullable_gt a b : compare_nullable a b = Gt <-> earlier b a.
Proof.
  destruct a as [x|], b as [y|]; simpl.
  - apply Z.compare_gt_iff.
  - split; [trivial | reflexivity].
  - split; [discriminate | contradiction].
  - split; [discriminate | contradiction].
Qed.

Lemma earlier_irrefl a : ~ earlier a a.
Proof. destruct a; simpl; [lia | tauto]. Qed.

Lemma earlier_trans a b c : earlier a b -> earlier b c -> earlier a c.
Proof. destruct a, b, c; simpl; try tauto; lia. Qed.

Lemma not_earlier_trans a b c :
  ~ earlier a b -> ~ earlier b c -> ~ earlier a c.
Proof. destruct a, b, c; simpl; try tauto; lia. Qed.

(** The comparison of the code is the order of the spec's wording. *)
Lemma precedes_selection_order r1 r2 :
  precedes r1 r2 = true <-> selection_order r1 r2.
Proof.
  unfold precedes, compare_rows, selection_order.
  destruct (compare_nullable (last_use r1) (last_use r2)) eqn:E.
  - apply compare_nullable_eq in E.
    destruct (compare_nullable (last_check r2) (last_check r1)) eqn:F.
    + apply compare_nullable_eq in F. split; [|reflexivity].
      intros _. right. split; [assumption|]. rewrite F. apply earlier_irrefl.
    + apply compare_nullable_lt in F. split; [|reflexivity].
      intros _. right. split; [assumption|]. intros G.
      apply (earlier_irrefl (last_check r1)). eapply earlier_trans; eauto.
    + apply compare_nullable_gt in F. split; [discriminate|].
      intros [G|[_ G]]; [|contradiction].
      rewrite E in G. now apply earlier_irrefl in G.
  - apply compare_nullable_lt in E. split; [|reflexivity]. intros _. now left.
  - apply compare_nullable_gt in E. split; [discriminate|].
    intros [G|[G _]].
    + exfalso. apply (earlier_irrefl (last_use r1)). eapply earlier_trans; eauto.
    + rewrite G in E. now apply earlier_irrefl in E.
Qed.

Lemma selection_order_trans r1 r2 r3 :
  selection_order r1 r2 -> selection_order r2 r3 -> selection_order r1 r3.
Proof.
  unfold selection_order. intros [H1|[H1 H1']] [H2|[H2 H2']].
  - left. eapply earlier_trans; eauto.
  - left. now rewrite <- H2.
  - left. now rewrite H1.
  - right. split; [congruence|]. eapply not_earlier_trans; eauto.
Qed.

Lemma precedes_total r1 r2 : precedes r1 r2 = false -> precedes r2 r1 = true.
Proof.
  unfold precedes, compare_rows.
  destruct (compare_nullable (last_use r1) (last_use r2)) eqn:E; try discriminate.
  - apply compare_nullable_eq in E.
    destruct (compare_nullable (last_check r2) (last_check r1)) eqn:F;
      try discriminate.
    intros _. apply compare_nullable_gt in F.
    assert (E' : compare_nullable (last_use r2) (last_use r1) = Eq)
      by (apply compare_nullable_eq; congruence).
    rewrite E'. apply compare_nullable_lt in F. now rewrite F.
  - intros _. apply compare_nullable_gt, compare_nullable_lt in E. now rewrite E.
Qed.

Lemma insert_row_perm r l : Permutation (insert_row r l) (r :: l).
Proof.
  induction l as [|s l IH]; simpl; [reflexivity|].
  destruct (precedes r s); [reflexivity|].
  rewrite IH. apply perm_swap.
Qed.

Lemma order_by_perm q : Permutation (order_by q) q.
Proof.
  induction q as [|r q IH]; simpl; [reflexivity|].
  rewrite insert_row_perm. now constructor.
Qed.

Lemma insert_row_sorted r l :
  Sorted selection_order l -> Sorted selection_order (insert_row r l).
Proof.
  induction l as [|s l IH]; simpl; intros Hs.
  - repeat constructor.
  - destruct (precedes r s) eqn:E.
    + constructor; [assumption|]. constructor.
      now apply precedes_selection_order.
    + inversion Hs as [|? ? Hs' Hhd]; subst.
      constructor; [now apply IH|].
      apply precedes_total, precedes_selection_order in E.
      destruct l as [|s' l]; simpl.
      * now constructor.
      * destruct (precedes r s'); constructor; auto.
        now inversion Hhd.
Qed.

Lemma order_by_sorted q : StronglySorted selection_order (order_by q).
Proof.
  apply Sorted_StronglySorted.
  - intros a b c. apply selection_order_trans.
  - induction q as [|r q IH]; simpl; [constructor | now apply insert_row_sorted].
Qed.

Lemma in_order_by q r : In r (order_by q) <-> In r q.
Proof.
  split; apply Permutation_in; [|symmetry]; apply order_by_perm.
Qed.

(** ** The query and the usage stamp *)

Lemma select_socks5_in db co cc ci mn mx limit s :
  In s (select_socks5 db co cc ci mn mx limit) ->
  In s db /\ passes co cc ci mn mx s = true.
Proof.
  unfold select_socks5. intros H.
  apply in_firstn in H. rewrite in_order_by, candidates_filter in H.
  now apply filter_In in H.
Qed.

Lemma same_but_last_use_trans r s t :
  same_but_last_use r s -> same_but_last_use s t -> same_but_last_use r t.
Proof.
  unfold same_but_last_use. intros H1 H2.
  rewrite H1 at 1. rewrite H2. apply with_last_use_twice.
Qed.

Lemma same_but_last_use_id r s : same_but_last_use r s -> id r = id s.
Proof. unfold same_but_last_use. intros ->. reflexivity. Qed.

Lemma same_but_last_use_passes co cc ci mn mx r s :
  same_but_last_use r s -> passes co cc ci mn mx r = passes co cc ci mn mx s.
Proof.
  unfold same_but_last_use. intros ->. unfold passes, asks_str, asks_float.
  reflexivity.
Qed.

Lemma stamp_in clock k result s' :
  In s' (stamp clock k result) ->
  exists s, In s result /\ same_but_last_use s' s.
Proof.
  revert k. induction result as [|s result IH]; simpl; intros k H.
  - contradiction.
  - destruct H as [<-|H].
    + exists s. split; [now left | apply same_but_last_use_stamp].
    + destruct (IH _ H) as (s0 & Hin & Hs). exists s0. split; [now right | assumption].
Qed.

Lemma stamp_ids clock k result : ids (stamp clock k result) = ids result.
Proof.
  revert k. induction result as [|s result IH]; simpl; intros k.
  - reflexivity.
  - now rewrite IH.
Qed.

Lemma update_last_use_in i t db r :
  In r (update_where_id i (with_last_use t) db) ->
  exists r0, In r0 db /\ same_but_last_use r r0.
Proof.
  unfold update_where_id. intros H. apply in_map_iff in H.
  destruct H as (r0 & <- & Hin). exists r0. split; [assumption|].
  destruct (id r0 =? i); [apply same_but_last_use_stamp | apply same_but_last_use_refl].
Qed.

Lemma commit_in objs db r :
  In r (commit objs db) -> exists r0, In r0 db /\ same_but_last_use r r0.
Proof.
  unfold commit. revert db. induction objs as [|s objs IH]; simpl; intros db H.
  - exists r. split; [assumption | apply same_but_last_use_refl].
  - apply IH in H. destruct H as (r1 & Hin & Hs).
    apply update_last_use_in in Hin. destruct Hin as (r0 & Hin & Hs0).
    exists r0. split; [assumption|]. eapply same_but_last_use_trans; eauto.
Qed.

Lemma commit_ids objs db : ids (commit objs db) = ids db.
Proof.
  unfold commit. revert db. induction objs as [|s objs IH]; simpl; intros db.
  - reflexivity.
  - rewrite IH. now apply ids_update_where_id.
Qed.

Lemma primary_key_unique db a b :
  primary_key db -> In a db -> In b db -> id a = id b -> a = b.
Proof.
  intros Hk Ha Hb E.
  pose proof (get_in db a Hk Ha) as Ga.
  pose proof (get_in db b Hk Hb) as Gb.
  rewrite E in Ga. congruence.
Qed.

(** Every row returned by [find_socks5] is a row of the table that passes
    the filters, up to its [last_use]. *)
Lemma find_socks5_origin clock db co cc ci mn mx uu limit r :
  primary_key db ->
  In r (fst (find_socks5 clock db co cc ci mn mx uu limit)) ->
  exists s, In s db /\ passes co cc ci mn mx s = true /\ same_but_last_use r s.
Proof.
  intros Hk. unfold find_socks5.
  destruct (negb (is_empty (select_socks5 db co cc ci mn mx limit)) && uu); simpl.
  - intros H. apply in_map_iff in H. destruct H as (s' & <- & Hin).
    apply stamp_in in Hin. destruct Hin as (s & Hin & Hs).
    apply select_socks5_in in Hin. destruct Hin as [Hdb Hp].
    exists s. split; [assumption|]. split; [assumption|].
    unfold refresh. destruct (get _ (id s')) as [r|] eqn:G; [|assumption].
    apply get_some in G. destruct G as [Hr Hid].
    apply commit_in in Hr. destruct Hr as (r0 & Hr0 & Hs0).
    assert (r0 = s) as ->.
    { apply (primary_key_unique db); auto.
      rewrite <- (same_but_last_use_id _ _ Hs0), Hid.
      now apply same_but_last_use_id. }
    assumption.
  - intros H. apply select_socks5_in in H. destruct H as [Hdb Hp].
    exists r. split; [assumption|]. split; [assumption|].
    apply same_but_last_use_refl.
Qed.

Lemma passes_operational co cc ci mn mx s :
  passes co cc ci mn mx s = true -> operational s = true.
Proof.
  unfold passes. intros H. repeat (apply andb_prop in H; destruct H as [H _]).
  assumption.
Qed.

Lemma primary_key_pool : primary_key pool.
Proof.
  unfold primary_key, pool, ids; simpl.
  repeat constructor; simpl; intuition discriminate.
Defined.

(** The scenario of the spec: of two German proxies only [proxy_a] has
    20 Mbit/s, and it is no longer found once it is marked as down. *)
Example scenario_find :
  fst (find_socks5 (tick 100) pool None (Some "DE"%string) None (Some (20 # 1)%Q) None true 1)
  = [with_last_use (Some 100) proxy_a].
Proof. reflexivity. Qed.

Example scenario_down :
  fst (find_socks5 (tick 100) (set_operational 50 pool 1 false)
         None (Some "DE"%string) None (Some (20 # 1)%Q) None true 1)
  = [].
Proof. reflexivity. Qed.

(** ** C1: only operational rows are returned *)

(** C1. Whatever the table and the filters, every row returned by
    [find_socks5] has [operational = true]. *)
Theorem find_socks5_operational clock db co cc ci mn mx uu limit r :
  primary_key db ->
  In r (fst (find_socks5 clock db co cc ci mn mx uu limit)) ->
  operational r = true.
Proof.
  intros Hk H. apply find_socks5_origin in H; [|assumption].
  destruct H as (s & _ & Hp & Hs).
  apply passes_operational in Hp. unfold same_but_last_use in Hs.
  rewrite Hs. exact Hp.
Qed.

Lemma find_socks5_operational_witness :
  operational (with_last_use (Some 100) proxy_a) = true.
Proof.
  apply (find_socks5_operational (tick 100) pool None (Some "DE"%string) None
           (Some (20 # 1)%Q) None true 1).
  - exact primary_key_pool.
  - simpl. left. reflexivity.
Defined.

(** ** C2: the order of the result *)

Lemma stamp_same clock k result :
  Forall2 same_but_last_use (stamp clock k result) result.
Proof.
  revert k. induction result as [|s result IH]; simpl; intros k; constructor.
  - apply same_but_last_use_stamp.
  - apply IH.
Qed.

Lemma Forall2_map_in {A B : Type} (P Q : A -> B -> Prop) (f : A -> A)
    (l1 : list A) (l2 : list B) :
  Forall2 P l1 l2 ->
  (forall a b, In b l2 -> P a b -> Q (f a) b) ->
  Forall2 Q (map f l1) l2.
Proof.
  induction 1 as [|a b l1 l2 Hab Hl IH]; simpl; intros HQ; constructor.
  - apply HQ; [now left | assumption].
  - apply IH. intros a' b' Hin. apply HQ. now right.
Qed.

Lemma refresh_commit_same db objs s' s :
  primary_key db -> In s db -> same_but_last_use s' s ->
  same_but_last_use (refresh (commit objs db) s') s.
Proof.
  intros Hk Hin Hs. unfold refresh.
  destruct (get _ (id s')) as [r|] eqn:G; [|assumption].
  apply get_some in G. destruct G as [Hr Hid].
  apply commit_in in Hr. destruct Hr as (r0 & Hr0 & Hs0).
  assert (r0 = s) as ->; [|assumption].
  apply (primary_key_unique db); auto.
  rewrite <- (same_but_last_use_id _ _ Hs0), Hid.
  now apply same_but_last_use_id.
Qed.

(** C2. The rows passing the filters are put in the order "[last_use]
    ascending, null first, ties by [last_check] descending" and the first
    [limit] of them are returned: as they are when [update_usage] is off,
    and with only their [last_use] stamped when it is on. *)
Theorem find_socks5_order clock db co cc ci mn mx limit :
  primary_key db ->
  let passing := filter (passes co cc ci mn mx) db in
  exists ordered,
    Permutation ordered passing /\
    StronglySorted selection_order ordered /\
    select_socks5 db co cc ci mn mx limit = firstn limit ordered /\
    fst (find_socks5 clock db co cc ci mn mx false limit) = firstn limit ordered /\
    Forall2 same_but_last_use
      (fst (find_socks5 clock db co cc ci mn mx true limit))
      (firstn limit ordered).
Proof.
  intros Hk passing. exists (order_by passing). subst passing.
  split; [apply order_by_perm|].
  split; [apply order_by_sorted|].
  assert (E : select_socks5 db co cc ci mn mx limit
              = firstn limit (order_by (filter (passes co cc ci mn mx) db))).
  { unfold select_socks5. now rewrite candidates_filter. }
  split; [exact E|].
  unfold find_socks5. rewrite andb_false_r, andb_true_r. simpl.
  split; [exact E|].
  rewrite <- E.
  destruct (select_socks5 db co cc ci mn mx limit) as [|s0 result] eqn:R.
  - constructor.
  - cbv beta iota delta [is_empty negb fst].
    apply (Forall2_map_in same_but_last_use); [apply stamp_same|].
    intros s' s Hin Hs. apply refresh_commit_same; auto.
    rewrite <- R in Hin. now apply select_socks5_in in Hin.
Qed.

Lemma find_socks5_order_witness :
  exists ordered,
    Permutation ordered [proxy_a; proxy_b] /\
    StronglySorted selection_order ordered /\
    select_socks5 pool None None None None None 1 = firstn 1 ordered /\
    fst (find_socks5 (tick 100) pool None None None None None false 1)
      = firstn 1 ordered /\
    Forall2 same_but_last_use
      (fst (find_socks5 (tick 100) pool None None None None None true 1))
      (firstn 1 ordered).
Proof.
  exact (find_socks5_order (tick 100) pool None None None None None 1
           primary_key_pool).
Defined.

(** ** C6: reading without a usage stamp *)

Lemma find_socks5_no_update clock db co cc ci mn mx limit :
  find_socks5 clock db co cc ci mn mx false limit
  = (select_socks5 db co cc ci mn mx limit, db).
Proof. unfold find_socks5. now rewrite andb_false_r. Qed.

Lemma repeat_find_same n clock db co cc ci mn mx limit :
  repeat_find n clock db co cc ci mn mx limit
  = (repeat (select_socks5 db co cc ci mn mx limit) n, db).
Proof.
  induction n as [|n IH]; simpl; [reflexivity|].
  now rewrite find_socks5_no_update, IH.
Qed.

(** C6. With [update_usage=False] the table is left as it was, whatever the
    filters; and when one row [r] alone passes the filters, each of any
    number of repeated calls returns [r]. *)
Theorem find_socks5_without_usage n clock db co cc ci mn mx limit r :
  filter (passes co cc ci mn mx) db = [r] ->
  (1 <= limit)%nat ->
  (forall db' co' cc' ci' mn' mx' limit',
      snd (find_socks5 clock db' co' cc' ci' mn' mx' false limit') = db') /\
  repeat_find n clock db co cc ci mn mx limit = (repeat [r] n, db).
Proof.
  intros Hone Hlim.
  split; [intros; now rewrite find_socks5_no_update|].
  rewrite repeat_find_same. f_equal. f_equal.
  unfold select_socks5. rewrite candidates_filter, Hone. simpl.
  destruct limit as [|limit]; [lia|]. simpl. now destruct limit.
Qed.

Lemma find_socks5_without_usage_witness :
  (forall db' co' cc' ci' mn' mx' limit',
      snd (find_socks5 (tick 100) db' co' cc' ci' mn' mx' false limit') = db') /\
  repeat_find 3 (tick 100) pool None None None (Some (20 # 1)%Q) None 1
  = ([ [proxy_a]; [proxy_a]; [proxy_a] ], pool).
Proof.
  apply (find_socks5_without_usage 3 (tick 100) pool None None None
           (Some (20 # 1)%Q) None 1 proxy_a).
  - reflexivity.
  - apply le_n.
Defined.

(** ** C4: what the filters guarantee *)

Lemma asks_str_true a p r v :
  a = Some v -> v <> ""%string -> asks_str a p r = true -> p v r = true.
Proof.
  intros -> Hv. unfold asks_str, truthy_str.
  destruct (String.eqb_spec v ""); [contradiction|]. simpl. auto.
Qed.

Lemma asks_float_true a p r v :
  a = Some v -> ~ (v == 0)%Q -> asks_float a p r = true -> p v r = true.
Proof.
  intros -> Hv. unfold asks_float, truthy_float.
  destruct (Qeq_bool v 0) eqn:E; [apply Qeq_bool_eq in E; contradiction|].
  simpl. auto.
Qed.

Lemma asks_truthy_equalities co cc ci r :
  asks_str co country_is r = true ->
  asks_str cc country_code_is r = true ->
  asks_str ci city_is r = true ->
  truthy_equalities co cc ci r.
Proof.
  intros H1 H2 H3. repeat split; intros v Hv Hne.
  - apply (asks_str_true _ _ _ v Hv Hne) in H1. now apply String.eqb_eq in H1.
  - apply (asks_str_true _ _ _ v Hv Hne) in H2. now apply String.eqb_eq in H2.
  - apply (asks_str_true _ _ _ v Hv Hne) in H3. unfold city_is in H3.
    destruct (city r) as [c|]; [|discriminate].
    apply String.eqb_eq in H3. now subst.
Qed.

Lemma asks_truthy_ranges mn mx r :
  asks_float mn bandwidth_ge r = true ->
  asks_float mx connect_time_le r = true ->
  truthy_ranges mn mx r.
Proof.
  intros H1 H2. split; intros v Hv Hne.
  - apply (asks_float_true _ _ _ v Hv Hne) in H1. unfold bandwidth_ge in H1.
    destruct (bandwidth r) as [b|]; [|discriminate].
    exists b. split; [reflexivity | now apply Qle_bool_iff].
  - apply (asks_float_true _ _ _ v Hv Hne) in H2. unfold connect_time_le in H2.
    destruct (connect_time r) as [c|]; [|discriminate].
    exists c. split; [reflexivity | now apply Qle_bool_iff].
Qed.

Lemma passes_truthy co cc ci mn mx s :
  passes co cc ci mn mx s = true ->
  truthy_equalities co cc ci s /\ truthy_ranges mn mx s.
Proof.
  unfold passes. intros H.
  apply andb_prop in H. destruct H as [H H6].
  apply andb_prop in H. destruct H as [H H5].
  apply andb_prop in H. destruct H as [H H4].
  apply andb_prop in H. destruct H as [H H3].
  apply andb_prop in H. destruct H as [_ H2].
  split; [now apply asks_truthy_equalities | now apply asks_truthy_ranges].
Qed.

Lemma filter_if_str_given a p q :
  filter_if_str (given_str a) p q = filter_if_str a p q.
Proof.
  destruct a as [v|]; [|reflexivity].
  unfold given_str, filter_if_str, truthy_str.
  destruct (v =? "")%string eqn:E; simpl; [reflexivity | now rewrite E].
Qed.

Lemma filter_if_float_given a p q :
  filter_if_float (given_float a) p q = filter_if_float a p q.
Proof.
  destruct a as [v|]; [|reflexivity].
  unfold given_float, filter_if_float, truthy_float.
  destruct (Qeq_bool v 0) eqn:E; simpl; [reflexivity | now rewrite E].
Qed.

Lemma list_socks5_given db co cc ci limit :
  list_socks5 db (given_str co) (given_str cc) (given_str ci) limit
  = list_socks5 db co cc ci limit.
Proof. unfold list_socks5. now rewrite !filter_if_str_given. Qed.

Lemma find_socks5_given clock db co cc ci mn mx uu limit :
  find_socks5 clock db (given_str co) (given_str cc) (given_str ci)
    (given_float mn) (given_float mx) uu limit
  = find_socks5 clock db co cc ci mn mx uu limit.
Proof.
  unfold find_socks5, select_socks5, candidates.
  now rewrite !filter_if_float_given, !filter_if_str_given.
Qed.

(** C4, as the code has it. Every row returned by [list_socks5] satisfies
    the equality predicate of each of [country], [country_code] and [city]
    that is given and not empty, and every row returned by [find_socks5]
    satisfies these and the range predicate of each of [min_mbps_down] and
    [max_connect_time] that is given and not zero. An argument that is the
    empty string or zero is taken as not given: both methods return what
    they return with [None] in its place, and [find_socks5] leaves the
    same table. *)
Theorem filters_hold db co cc ci :
  primary_key db ->
  (forall limit r,
      In r (list_socks5 db co cc ci limit) -> truthy_equalities co cc ci r)
  /\
  (forall clock mn mx uu limit r,
      In r (fst (find_socks5 clock db co cc ci mn mx uu limit)) ->
      truthy_equalities co cc ci r /\ truthy_ranges mn mx r)
  /\
  (forall limit,
      list_socks5 db co cc ci limit
      = list_socks5 db (given_str co) (given_str cc) (given_str ci) limit)
  /\
  (forall clock mn mx uu limit,
      find_socks5 clock db co cc ci mn mx uu limit
      = find_socks5 clock db (given_str co) (given_str cc) (given_str ci)
          (given_float mn) (given_float mx) uu limit).
Proof.
  intros Hk. split; [|split; [|split]].
  - intros limit r H.
    rewrite list_socks5_filter in H. apply in_firstn, filter_In in H.
    destruct H as [_ H].
    apply andb_prop in H. destruct H as [H H3].
    apply andb_prop in H. destruct H as [H1 H2].
    now apply asks_truthy_equalities.
  - intros clock mn mx uu limit r H.
    apply find_socks5_origin in H; [|assumption].
    destruct H as (s & _ & Hp & Hs).
    apply passes_truthy in Hp. unfold same_but_last_use in Hs.
    rewrite Hs. exact Hp.
  - intros limit. symmetry. apply list_socks5_given.
  - intros clock mn mx uu limit. symmetry. apply find_socks5_given.
Qed.

Lemma filters_hold_witness :
  (forall limit r,
      In r (list_socks5 pool (Some ""%string) (Some "DE"%string) None limit) ->
      truthy_equalities (Some ""%string) (Some "DE"%string) None r)
  /\
  (forall clock mn mx uu limit r,
      In r (fst (find_socks5 clock pool (Some ""%string) (Some "DE"%string) None
                   mn mx uu limit)) ->
      truthy_equalities (Some ""%string) (Some "DE"%string) None r /\
      truthy_ranges mn mx r)
  /\
  (forall limit,
      list_socks5 pool (Some ""%string) (Some "DE"%string) None limit
      = list_socks5 pool None (Some "DE"%string) None limit)
  /\
  (forall clock mn mx uu limit,
      find_socks5 clock pool (Some ""%string) (Some "DE"%string) None
        mn mx uu limit
      = find_socks5 clock pool None (Some "DE"%string) None
          (given_float mn) (given_float mx) uu limit).
Proof.
  exact (filters_hold pool (Some ""%string) (Some "DE"%string) None
           primary_key_pool).
Defined.

(** C4 as stated fails: an empty string and a zero are given, and are not
    applied. [list_socks5(country="")] returns the German [proxy_a], and
    [find_socks5(max_connect_time=0)] returns [proxy_a], whose connect time
    is 1/5. *)
Lemma filters_empty_or_zero_not_applied :
  ~ (forall db co cc ci limit r,
        In r (list_socks5 db co cc ci limit) -> provided_equalities co cc ci r)
  /\
  ~ (forall clock db co cc ci mn mx uu limit r,
        primary_key db ->
        In r (fst (find_socks5 clock db co cc ci mn mx uu limit)) ->
        provided_equalities co cc ci r /\ provided_ranges mn mx r).
Proof.
  split.
  - intros H.
    specialize (H pool (Some ""%string) None None 500%nat proxy_a).
    destruct H as [H _]; [simpl; now left|].
    specialize (H ""%string eq_refl). discriminate H.
  - intros H.
    specialize (H (tick 100) pool None None None None (Some 0%Q) false 1%nat
                  proxy_a primary_key_pool).
    destruct H as [_ [_ H]]; [simpl; now left|].
    destruct (H 0%Q eq_refl) as (c & Hc & Hle).
    simpl in Hc. injection Hc as <-.
    unfold Qle in Hle. simpl in Hle. lia.
Qed.

(** ** C7: the measurement updates touch one column of one row *)

Lemma update_where_id_rows (R : Socks5 -> Socks5 -> Prop) i f db :
  (forall r, id r = i -> R r (f r)) ->
  (forall r, id r <> i -> R r r) ->
  Forall2 R db (update_where_id i f db).
Proof.
  intros Hhit Hmiss. unfold update_where_id.
  induction db as [|r db IH]; simpl; constructor; [|assumption].
  destruct (Z.eqb_spec (id r) i); auto.
Qed.

(** C7. Row by row, [set_connect_time] leaves every column but
    [connect_time] as it was, writes the value into the row with the given
    key and leaves every other row as it was; [set_approx_bandwidth] does
    the same for [bandwidth]. *)
Theorem set_measurement_frame db i v :
  Forall2
    (fun r r' =>
       same_but_connect_time r r' /\
       (id r = i -> connect_time r' = Some v) /\
       (id r <> i -> r' = r))
    db (set_connect_time db i v)
  /\
  Forall2
    (fun r r' =>
       same_but_bandwidth r r' /\
       (id r = i -> bandwidth r' = Some v) /\
       (id r <> i -> r' = r))
    db (set_approx_bandwidth db i v).
Proof.
  split; apply update_where_id_rows; intros r Hr.
  - split; [repeat split|]. split; [reflexivity | contradiction].
  - split; [repeat split|]. split; [contradiction | reflexivity].
  - split; [repeat split|]. split; [reflexivity | contradiction].
  - split; [repeat split|]. split; [contradiction | reflexivity].
Qed.

Example set_connect_time_pool :
  set_connect_time pool 2 (3 # 10)
  = [proxy_a; with_connect_time (Some (3 # 10)%Q) proxy_b; proxy_c].
Proof. reflexivity. Qed.

(** ** C8: removing a key that is not there *)

Lemma filter_all {A : Type} (p : A -> bool) (l : list A) :
  (forall x, In x l -> p x = true) -> filter p l = l.
Proof.
  intros H. apply forallb_filter_id. now apply forallb_forall.
Qed.

Lemma remove_socks5_gone db i : ~ In i (ids (fst (remove_socks5 db i))).
Proof.
  unfold remove_socks5, ids. simpl. intros H. apply in_map_iff in H.
  destruct H as (r & Hid & Hin). apply filter_In in Hin.
  destruct Hin as [_ Hne]. apply negb_true_iff, Z.eqb_neq in Hne. contradiction.
Qed.

Lemma remove_socks5_nothing db i :
  ~ In i (ids db) -> remove_socks5 db i = (db, true).
Proof.
  intros Hn. unfold remove_socks5. f_equal. apply filter_all.
  intros r Hin. apply negb_true_iff, Z.eqb_neq. intros E. apply Hn.
  rewrite <- E. unfold ids. now apply in_map.
Qed.

(** C8, as the code has it. For a key that is a 64-bit integer and is not
    in the table, [remove_socks5], its statements being executed, returns
    [True] and leaves the table as it was; this is the case of a key that
    was removed before. *)
Theorem remove_socks5_absent db i :
  sqlite_integer i = true ->
  (~ In i (ids db) -> Method.remove_socks5 Executes db i = Returned true db) /\
  Method.remove_socks5 Executes (fst (remove_socks5 db i)) i
  = Returned true (fst (remove_socks5 db i)).
Proof.
  intros Hi.
  assert (H : forall d, ~ In i (ids d) ->
                        Method.remove_socks5 Executes d i = Returned true d).
  { intros d Hn. unfold Method.remove_socks5.
    now rewrite Hi, (remove_socks5_nothing d i Hn). }
  split; [apply H|]. apply H, remove_socks5_gone.
Qed.

Lemma remove_socks5_absent_witness :
  Method.remove_socks5 Executes pool 7 = Returned true pool /\
  Method.remove_socks5 Executes (fst (remove_socks5 pool 2)) 2
  = Returned true [proxy_a; proxy_c].
Proof.
  split.
  - apply (proj1 (remove_socks5_absent pool 7 eq_refl)).
    unfold ids, pool; simpl. intuition discriminate.
  - exact (proj2 (remove_socks5_absent pool 2 eq_refl)).
Defined.

(** C8 as stated fails: a key need not be a 64-bit integer. For the key
    [2^63], which no row has, [remove_socks5] does not return: the
    [OverflowError] of the driver is not an [SQLAlchemyError] and is not
    caught. *)
Lemma remove_socks5_raises_out_of_range :
  ~ (forall db i,
        ~ In i (ids db) ->
        Method.remove_socks5 Executes db i = Returned true db).
Proof.
  intros H. specialize (H pool 9223372036854775808).
  assert (E : Method.remove_socks5 Executes pool 9223372036854775808
              = Raised OverflowError pool) by reflexivity.
  rewrite E in H. discriminate H.
  unfold ids, pool; simpl. intuition discriminate.
Qed.

(** ** C10: measurements for a key that is not there *)

(** C10, as the code has it. For a key that is a 64-bit integer and is
    not in the table, [set_connect_time] and [set_approx_bandwidth] return,
    with the table as it was, whether the engine executes the statements
    or raises. *)
Theorem set_measurement_absent e db i v :
  sqlite_integer i = true ->
  ~ In i (ids db) ->
  Method.set_connect_time e db i v = Returned tt db /\
  Method.set_approx_bandwidth e db i v = Returned tt db.
Proof.
  intros Hi Hn. unfold Method.set_connect_time, Method.set_approx_bandwidth.
  rewrite Hi. unfold set_connect_time, set_approx_bandwidth.
  rewrite !(update_where_id_absent i _ db Hn). now destruct e.
Qed.

Lemma set_measurement_absent_witness :
  Method.set_connect_time Executes pool 7 (1 # 2) = Returned tt pool /\
  Method.set_approx_bandwidth Executes pool 7 (1 # 2) = Returned tt pool.
Proof.
  apply (set_measurement_absent Executes pool 7 (1 # 2)%Q).
  - reflexivity.
  - unfold ids, pool; simpl. intuition discriminate.
Defined.

(** C10 as stated fails: for the key [2^63], which no row has, neither
    method returns; the [OverflowError] of the driver leaves it. *)
Lemma set_measurement_raises_out_of_range :
  ~ (forall e db i v,
        ~ In i (ids db) ->
        Method.set_connect_time e db i v = Returned tt db /\
        Method.set_approx_bandwidth e db i v = Returned tt db).
Proof.
  intros H.
  specialize (H Executes pool 9223372036854775808 (1 # 2)%Q).
  assert (E : Method.set_connect_time Executes pool 9223372036854775808 (1 # 2)
              = Raised OverflowError pool) by reflexivity.
  rewrite E in H. destruct H as [H _]; [|discriminate H].
  unfold ids, pool; simpl. intuition discriminate.
Qed.

(** ** C9: a row that was added can be viewed *)

Lemma fold_left_max_ge (l : list Z) (a : Z) :
  a <= fold_left Z.max l a /\ (forall x, In x l -> x <= fold_left Z.max l a).
Proof.
  revert a. induction l as [|y l IH]; simpl; intros a.
  - split; [lia | contradiction].
  - destruct (IH (Z.max a y)) as [H1 H2]. split; [lia|].
    intros x [<-|Hx]; [lia | auto].
Qed.

Lemma next_id_above db r : In r db -> id r < next_id db.
Proof.
  unfold next_id, ids. destruct db as [|s db]; simpl; [contradiction|].
  destruct (fold_left_max_ge (map id db) (id s)) as [H1 H2].
  intros [<-|Hin]; [lia|].
  specialize (H2 (id r) (in_map id _ _ Hin)). lia.
Qed.

Lemma next_id_fresh db : ~ In (next_id db) (ids db).
Proof.
  unfold ids. intros H. apply in_map_iff in H. destruct H as (r & E & Hin).
  apply next_id_above in Hin. lia.
Qed.

Lemma get_app_fresh db i row :
  ~ In i (ids db) -> id row = i -> get (db ++ [row]) i = Some row.
Proof.
  unfold get, ids. induction db as [|r db IH]; simpl; intros Hn E.
  - rewrite E, Z.eqb_refl. reflexivity.
  - destruct (Z.eqb_spec (id r) i) as [Er|Er].
    + exfalso. apply Hn. now left.
    + apply IH; [|assumption]. intros Hin. apply Hn. now right.
Qed.

(** C9. [add_socks5] returns [True] and extends the table by one row under
    a key that was not in use; [view_socks5] of that key returns a row with
    the host, port, country, country code, operational flag, city, user
    name, password and description that were passed, [None] included. *)
Theorem add_then_view now db h p co cc op ci u pw d :
  exists i r,
    add_socks5 now db h p co cc op ci u pw d = (db ++ [r], true) /\
    ~ In i (ids db) /\
    view_socks5 (fst (add_socks5 now db h p co cc op ci u pw d)) i = Some r /\
    id r = i /\ host r = h /\ port r = p /\ country r = co /\
    country_code r = cc /\ operational r = op /\ city r = ci /\
    username r = u /\ password r = pw /\ description r = d.
Proof.
  exists (next_id db).
  exists (mkSocks5 (next_id db) h p co cc ci u pw now None None op None None d).
  split; [reflexivity|].
  split; [apply next_id_fresh|].
  split.
  - unfold view_socks5, add_socks5. simpl.
    apply get_app_fresh; [apply next_id_fresh | reflexivity].
  - repeat split.
Qed.

Example view_after_add_pool :
  view_socks5
    (fst (add_socks5 20 pool "10.0.0.1" 1080 "Spain" "ES" false
            None (Some "user"%string) None None)) 4
  = Some (mkSocks5 4 "10.0.0.1" 1080 "Spain" "ES" None (Some "user"%string) None
            20 None None false None None None).
Proof. reflexivity. Qed.

(** ** The primary key is kept by every call *)

Lemma NoDup_ids_filter (p : Socks5 -> bool) db :
  primary_key db -> primary_key (filter p db).
Proof.
  unfold primary_key, ids. induction db as [|r db IH]; simpl; intros Hk.
  - constructor.
  - inversion Hk as [|? ? Hn Hk']; subst. destruct (p r); simpl; auto.
    constructor; auto. intros Hin. apply Hn.
    apply in_map_iff in Hin. destruct Hin as (s & E & Hs).
    apply filter_In in Hs. rewrite <- E. apply in_map. tauto.
Qed.

Lemma existsb_eqb_in (i : Z) (l : list Z) :
  existsb (Z.eqb i) l = true <-> In i l.
Proof.
  rewrite existsb_exists. split.
  - intros (x & Hin & E). apply Z.eqb_eq in E. now subst.
  - intros Hin. exists i. split; [assumption | apply Z.eqb_refl].
Qed.

Lemma fresh_keys_spec db rows :
  fresh_keys db rows = true ->
  forall r, In r rows -> ~ In (id r) (ids db).
Proof.
  unfold fresh_keys. rewrite forallb_forall. intros H r Hin Hid.
  specialize (H r Hin). apply negb_true_iff in H.
  apply existsb_eqb_in in Hid. congruence.
Qed.

Lemma distinct_keys_spec rows : distinct_keys rows = true -> primary_key rows.
Proof.
  unfold primary_key, ids. induction rows as [|r rows IH]; simpl; intros H.
  - constructor.
  - apply andb_prop in H. destruct H as [H1 H2]. constructor; auto.
    intros Hin. apply existsb_eqb_in in Hin. apply negb_true_iff in H1.
    unfold ids in H1. congruence.
Qed.

Lemma primary_key_app db rows :
  primary_key db -> primary_key rows ->
  (forall r, In r rows -> ~ In (id r) (ids db)) ->
  primary_key (db ++ rows).
Proof.
  unfold primary_key, ids. intros Hd Hr Hf. rewrite map_app.
  induction db as [|s db IH]; simpl; [assumption|].
  inversion Hd as [|? ? Hn Hd']; subst. constructor.
  - rewrite in_app_iff. intros [Hin|Hin]; [contradiction|].
    apply in_map_iff in Hin. destruct Hin as (r & E & Hin).
    apply (Hf r Hin). left. now symmetry.
  - apply IH; [assumption|]. intros r Hin Hid. apply (Hf r Hin). now right.
Qed.

Lemma primary_key_with_ids db db' :
  ids db' = ids db -> primary_key db -> primary_key db'.
Proof. unfold primary_key. now intros ->. Qed.

Lemma insert_by_id_perm r db : Permutation (insert_by_id r db) (r :: db).
Proof.
  induction db as [|s db IH]; simpl; [reflexivity|].
  destruct (id r <? id s); [reflexivity|].
  rewrite IH. apply perm_swap.
Qed.

Lemma insert_rows_perm rows db : Permutation (insert_rows rows db) (db ++ rows).
Proof.
  unfold insert_rows. revert db.
  induction rows as [|r rows IH]; simpl; intros db.
  - now rewrite app_nil_r.
  - rewrite IH, insert_by_id_perm. simpl. apply Permutation_middle.
Qed.

Lemma in_insert_rows rows db r :
  In r (insert_rows rows db) <-> In r db \/ In r rows.
Proof.
  rewrite <- in_app_iff.
  split; apply Permutation_in; [|symmetry]; apply insert_rows_perm.
Qed.

(** What [bulk_add_socks5] leaves: the table as it was, or the table with
    the rows, none of which has a key of the table or of another row. *)
Lemma bulk_add_socks5_cases db rows :
  fst (bulk_add_socks5 db rows) = db \/
  (fst (bulk_add_socks5 db rows) = insert_rows rows db /\
   snd (bulk_add_socks5 db rows) = true /\
   primary_key rows /\
   forall r, In r rows -> ~ In (id r) (ids db)).
Proof.
  unfold bulk_add_socks5. destruct rows as [|r0 rows]; [now left|].
  destruct (fresh_keys db (r0 :: rows) && distinct_keys (r0 :: rows)) eqn:E;
    [|now left].
  right. apply andb_prop in E. destruct E as [E1 E2].
  split; [reflexivity|]. split; [reflexivity|].
  split; [now apply distinct_keys_spec | now apply fresh_keys_spec].
Qed.

Lemma exec_primary_key c db : primary_key db -> primary_key (exec c db).
Proof.
  intros Hk.
  destruct c as [now h p co cc op ci u pw d | i | co cc ci lim | i
                 | clock co cc ci mn mx uu lim | rows | now i b | i v | i v];
    simpl; auto.
  - apply primary_key_app; [assumption | |].
    + unfold primary_key; simpl. constructor; [tauto | constructor].
    + intros r [<-|[]]. apply next_id_fresh.
  - now apply NoDup_ids_filter.
  - unfold find_socks5.
    destruct (negb (is_empty _) && uu); simpl; [|assumption].
    eapply primary_key_with_ids; [apply commit_ids | assumption].
  - destruct (bulk_add_socks5_cases db rows) as [->|(-> & _ & Hd & Hf)];
      [assumption|].
    unfold primary_key, ids.
    eapply Permutation_NoDup;
      [symmetry; apply Permutation_map, insert_rows_perm|].
    now apply primary_key_app.
  - unfold set_operational. destruct (get db i); [|assumption].
    eapply primary_key_with_ids; [|eassumption]. now apply ids_update_where_id.
  - eapply primary_key_with_ids; [|eassumption]. now apply ids_update_where_id.
  - eapply primary_key_with_ids; [|eassumption]. now apply ids_update_where_id.
Qed.

Lemma reachable_primary_key db : reachable db -> primary_key db.
Proof.
  induction 1 as [|c db _ IH]; [constructor | now apply exec_primary_key].
Qed.

(** ** C5: who writes [operational] *)

Lemma in_update_where_id i f db r' :
  In r' (update_where_id i f db) ->
  exists r0, In r0 db /\ ((id r0 = i /\ r' = f r0) \/ (id r0 <> i /\ r' = r0)).
Proof.
  unfold update_where_id. intros H. apply in_map_iff in H.
  destruct H as (r0 & <- & Hin). exists r0. split; [assumption|].
  destruct (Z.eqb_spec (id r0) i); [left | right]; auto.
Qed.

Lemma find_socks5_table_in clock db co cc ci mn mx uu limit r' :
  In r' (snd (find_socks5 clock db co cc ci mn mx uu limit)) ->
  exists r0, In r0 db /\ same_but_last_use r' r0.
Proof.
  unfold find_socks5.
  destruct (negb (is_empty _) && uu); simpl; intros H.
  - now apply commit_in in H.
  - exists r'. split; [assumption | apply same_but_last_use_refl].
Qed.

(** A row of the table after a call that has the key of a row before it
    and another [operational] flag was written by [set_operational], with
    the time of that call as its [last_check]. *)
Lemma exec_operational c db r r' :
  primary_key db -> In r db -> In r' (exec c db) -> id r' = id r ->
  operational r' <> operational r ->
  exists now b,
    c = SetOperational now (id r) b /\
    operational r' = b /\ last_check r' = Some now.
Proof.
  intros Hk Hr Hr' Hid Hop.
  assert (Hsame : forall r0, In r0 db -> id r' = id r0 -> r0 = r).
  { intros r0 H0 E. apply (primary_key_unique db); auto. congruence. }
  destruct c as [now h p co cc op ci u pw d | i | co cc ci lim | i
                 | clock co cc ci mn mx uu lim | rows | now i b | i v | i v];
    simpl in Hr'.
  - apply in_app_iff in Hr'. destruct Hr' as [Hin|[<-|[]]].
    + rewrite (Hsame r' Hin eq_refl) in Hop. contradiction.
    + exfalso. simpl in Hid. apply (next_id_fresh db).
      rewrite Hid. unfold ids. now apply in_map.
  - apply filter_In in Hr'. destruct Hr' as [Hin _].
    rewrite (Hsame r' Hin eq_refl) in Hop. contradiction.
  - rewrite (Hsame r' Hr' eq_refl) in Hop. contradiction.
  - rewrite (Hsame r' Hr' eq_refl) in Hop. contradiction.
  - apply find_socks5_table_in in Hr'. destruct Hr' as (r0 & H0 & Hs).
    pose proof (Hsame r0 H0 (same_but_last_use_id _ _ Hs)) as ->.
    unfold same_but_last_use in Hs. rewrite Hs in Hop. contradiction.
  - destruct (bulk_add_socks5_cases db rows) as [E|(E & _ & _ & Hf)];
      rewrite E in Hr'.
    + rewrite (Hsame r' Hr' eq_refl) in Hop. contradiction.
    + apply in_insert_rows in Hr'. destruct Hr' as [Hin|Hin].
      * rewrite (Hsame r' Hin eq_refl) in Hop. contradiction.
      * exfalso. apply (Hf r' Hin).
        rewrite Hid. unfold ids. now apply in_map.
  - unfold set_operational in Hr'. destruct (get db i) as [g|].
    + apply in_update_where_id in Hr'.
      destruct Hr' as (r0 & H0 & [[Hi ->]|[Hi ->]]).
      * pose proof (Hsame r0 H0 eq_refl) as ->.
        exists now, b. rewrite Hi. auto.
      * rewrite (Hsame r0 H0 eq_refl) in Hop. contradiction.
    + rewrite (Hsame r' Hr' eq_refl) in Hop. contradiction.
  - apply in_update_where_id in Hr'.
    destruct Hr' as (r0 & H0 & [[Hi ->]|[Hi ->]]);
      pose proof (Hsame r0 H0 eq_refl) as ->; contradiction.
  - apply in_update_where_id in Hr'.
    destruct Hr' as (r0 & H0 & [[Hi ->]|[Hi ->]]);
      pose proof (Hsame r0 H0 eq_refl) as ->; contradiction.
Qed.

Lemma set_operational_get now db i b r :
  get db i = Some r ->
  get (set_operational now db i b) i = Some (with_health b (Some now) r).
Proof.
  intros G. unfold set_operational. rewrite G.
  rewrite get_update_where_id by reflexivity. rewrite G. simpl.
  apply get_some in G. destruct G as [_ ->]. now rewrite Z.eqb_refl.
Qed.

(** C5, as the code has it. In a reachable table, a call that changes the
    [operational] flag of a row that is already there is a
    [set_operational] of that row, and it writes the time of the call to
    [last_check] in the same update. A row is created by [add_socks5] with
    the [operational] flag that is passed and a null [last_check]. *)
Theorem operational_written_with_last_check db :
  reachable db ->
  (forall c r r',
      In r db -> In r' (exec c db) -> id r' = id r ->
      operational r' <> operational r ->
      exists now b,
        c = SetOperational now (id r) b /\
        operational r' = b /\ last_check r' = Some now)
  /\
  (forall now i b r,
      get db i = Some r ->
      exists r',
        get (set_operational now db i b) i = Some r' /\
        operational r' = b /\ last_check r' = Some now)
  /\
  (forall now h p co cc op ci u pw d,
      exists r',
        exec (AddSocks5 now h p co cc op ci u pw d) db = db ++ [r'] /\
        operational r' = op /\ last_check r' = None).
Proof.
  intros Hreach. apply reachable_primary_key in Hreach.
  split; [|split].
  - intros c r r'. now apply exec_operational.
  - intros now i b r G. exists (with_health b (Some now) r).
    split; [now apply set_operational_get | split; reflexivity].
  - intros. eexists. split; [reflexivity | split; reflexivity].
Qed.

Lemma reachable_pool : reachable pool.
Proof. exact (reachable_exec (BulkAddSocks5 pool) [] reachable_empty). Defined.

Lemma operational_written_with_last_check_witness :
  exists r',
    get (set_operational 50 pool 1 false) 1 = Some r' /\
    operational r' = false /\ last_check r' = Some 50.
Proof.
  apply (proj1 (proj2 (operational_written_with_last_check pool reachable_pool))
           50 1 false proxy_a).
  reflexivity.
Defined.

(** C5 as stated fails: [add_socks5] sets [operational] too, and leaves
    [last_check] null. A call on the empty table is enough. *)
Lemma add_socks5_sets_operational_unstamped :
  ~ (forall c db r',
        reachable db -> In r' (exec c db) ->
        (get db (id r') = None \/
         exists r, get db (id r') = Some r /\ operational r' <> operational r) ->
        exists now i b, c = SetOperational now i b /\ last_check r' = Some now).
Proof.
  intros H.
  specialize
    (H (AddSocks5 100 "1.2.3.4" 1080 "Germany" "DE" true None None None None) []
       (mkSocks5 1 "1.2.3.4" 1080 "Germany" "DE" None None None
          100 None None true None None None)
       reachable_empty).
  destruct H as (now & i & b & Hc & _).
  - simpl. now left.
  - left. reflexivity.
  - discriminate Hc.
Qed.

(** ** C3: rotation *)

Section Rotation.

(** The [last_use] that all rows have before the first call. *)
Variable u : option datetime.

Lemma unstamped_true r : unstamped u r = true <-> last_use r = u.
Proof.
  unfold unstamped. rewrite <- compare_nullable_eq.
  destruct (compare_nullable (last_use r) u); split; congruence.
Qed.

Lemma unstamped_later r : earlier u (last_use r) -> unstamped u r = false.
Proof.
  intros H. destruct (unstamped u r) eqn:E; [|reflexivity].
  apply unstamped_true in E. rewrite E in H. now apply earlier_irrefl in H.
Qed.

Lemma rotating_candidates db :
  rotating u db -> candidates db None None None None None = db.
Proof.
  intros [_ H]. unfold candidates. simpl. apply filter_all.
  intros r Hin. rewrite Forall_forall in H. now apply H.
Qed.

(** The first row of the order has never been stamped as long as some
    row has not. *)
Lemma order_by_head_unused db x :
  rotating u db -> In x db -> last_use x = u ->
  exists h rest, order_by db = h :: rest /\ In h db /\ last_use h = u.
Proof.
  intros [_ Hall] Hx Hu.
  pose proof (order_by_sorted db) as Hs.
  pose proof (proj2 (in_order_by db x) Hx) as Hin.
  destruct (order_by db) as [|h rest] eqn:E; [contradiction|].
  assert (Hh : In h db) by (apply in_order_by; rewrite E; now left).
  exists h, rest. split; [reflexivity|]. split; [assumption|].
  destruct Hin as [->|Hin]; [assumption|].
  apply StronglySorted_inv in Hs. destruct Hs as [_ Hs].
  rewrite Forall_forall in Hs. specialize (Hs x Hin).
  rewrite Forall_forall in Hall. destruct (Hall h Hh) as [_ [Hl|Hl]]; [assumption|].
  exfalso. destruct Hs as [Hs|[Hs _]].
  - rewrite Hu in Hs. apply (earlier_irrefl u). eapply earlier_trans; eauto.
  - rewrite Hs, Hu in Hl. now apply earlier_irrefl in Hl.
Qed.

(** One call: an unused row is returned, and it alone is stamped. *)
Lemma rotate_step clock db x :
  rotating u db -> In x db -> last_use x = u ->
  exists h,
    In h db /\ last_use h = u /\
    find_socks5 clock db None None None None None true 1
    = ([with_last_use (Some (clock 0%nat)) h],
       update_where_id (id h) (with_last_use (Some (clock 0%nat))) db).
Proof.
  intros Hrot Hx Hu.
  destruct (order_by_head_unused db x Hrot Hx Hu) as (h & rest & E & Hh & Hl).
  exists h. split; [assumption|]. split; [assumption|].
  unfold find_socks5, select_socks5.
  rewrite (rotating_candidates db Hrot), E. simpl.
  unfold commit, refresh. simpl.
  rewrite get_update_where_id by reflexivity.
  rewrite (get_in db h (proj1 Hrot) Hh). simpl.
  now rewrite Z.eqb_refl.
Qed.

Lemma rotating_update db i t :
  rotating u db -> earlier u (Some t) ->
  rotating u (update_where_id i (with_last_use (Some t)) db).
Proof.
  intros [Hk Hall] Ht. split.
  - eapply primary_key_with_ids; [|eassumption]. now apply ids_update_where_id.
  - unfold update_where_id. apply Forall_map.
    eapply Forall_impl; [|exact Hall]. simpl.
    intros r [Hop Hl]. destruct (id r =? i); simpl; auto.
Qed.

Lemma unused_update db i t :
  earlier u (Some t) ->
  ids (unused u (update_where_id i (with_last_use (Some t)) db))
  = filter (fun j => negb (j =? i)) (ids (unused u db)).
Proof.
  intros Ht. unfold unused, update_where_id, ids.
  induction db as [|r db IH]; simpl; [reflexivity|].
  destruct (Z.eqb_spec (id r) i) as [E|E].
  - rewrite (unstamped_later (with_last_use (Some t) r) Ht).
    destruct (unstamped u r); simpl; [|exact IH].
    destruct (Z.eqb_spec (id r) i); [exact IH | contradiction].
  - destruct (unstamped u r); simpl; [|exact IH].
    destruct (Z.eqb_spec (id r) i); [contradiction|]. simpl. now rewrite IH.
Qed.

Lemma length_filter_neq (l : list Z) (a : Z) :
  NoDup l ->
  (List.length l <= S (List.length (filter (fun j => negb (Z.eqb j a)) l)))%nat.
Proof.
  induction 1 as [|x l Hn Hd IH]; simpl; [lia|].
  destruct (Z.eqb_spec x a) as [E|E]; simpl; [|lia].
  rewrite filter_all; [lia|].
  intros y Hy. apply negb_true_iff, Z.eqb_neq. congruence.
Qed.

Lemma rotate_distinct clocks :
  forall db,
    rotating u db ->
    Forall (fun clock => earlier u (Some (clock 0%nat))) clocks ->
    (List.length clocks <= List.length (unused u db))%nat ->
    NoDup (ids (fst (rotate clocks db))) /\
    List.length (fst (rotate clocks db)) = List.length clocks /\
    incl (ids (fst (rotate clocks db))) (ids (unused u db)).
Proof.
  induction clocks as [|clock later IH]; intros db Hrot Hclk Hlen.
  - simpl. split; [constructor|]. split; [reflexivity|]. intros i [].
  - inversion Hclk as [|? ? Hc Hlater]; subst.
    assert (Hex : exists x, In x db /\ last_use x = u).
    { destruct (unused u db) as [|x xs] eqn:Hun; [simpl in Hlen; lia|].
      exists x. rewrite <- unstamped_true. apply filter_In.
      fold (unused u db). rewrite Hun. now left. }
    destruct Hex as (x & Hx & Hxu).
    destruct (rotate_step clock db x Hrot Hx Hxu) as (h & Hh & Hhu & Hfind).
    cbn [rotate]. rewrite Hfind.
    set (db1 := update_where_id (id h) (with_last_use (Some (clock 0%nat))) db).
    assert (Hids : ids (unused u db1)
                   = filter (fun j => negb (j =? id h)) (ids (unused u db)))
      by (now apply unused_update).
    assert (Hnd : NoDup (ids (unused u db)))
      by (apply NoDup_ids_filter, Hrot).
    assert (Hlen1 : (List.length later <= List.length (unused u db1))%nat).
    { pose proof (length_filter_neq _ (id h) Hnd) as Hl.
      rewrite <- Hids in Hl. unfold ids in Hl. rewrite !length_map in Hl.
      simpl in Hlen. lia. }
    destruct (IH db1 (rotating_update db (id h) _ Hrot Hc) Hlater Hlen1)
      as (Hnd1 & Hl1 & Hincl1).
    destruct (rotate later db1) as [more db2].
    cbn [fst app ids map List.length] in *.
    change (map id more) with (ids more) in *.
    split; [|split].
    + constructor; [|exact Hnd1]. intros Hin. apply Hincl1 in Hin.
      rewrite Hids in Hin. apply filter_In in Hin. destruct Hin as [_ Hin].
      now rewrite Z.eqb_refl in Hin.
    + now rewrite Hl1.
    + intros i [<-|Hin].
      * change (In (id h) (ids (unused u db))).
        unfold unused, ids. apply in_map, filter_In.
        split; [assumption | now apply unstamped_true].
      * apply Hincl1 in Hin. rewrite Hids in Hin.
        now apply filter_In in Hin.
Qed.

End Rotation.

(** C3, as the code has it. Take a table of [N] rows, all operational and
    all with the same [last_use], and [N] successive calls
    [find_socks5(limit=1, update_usage=True)] whose clock readings are
    later than that [last_use], as every reading is when it is null. Each
    call returns one row, and the [N] keys returned are pairwise distinct.
    Nothing is asked of [N] or of [last_check]. *)
Theorem rotation u clocks db :
  primary_key db ->
  Forall (fun r => operational r = true /\ last_use r = u) db ->
  List.length clocks = List.length db ->
  Forall (fun clock => earlier u (Some (clock 0%nat))) clocks ->
  NoDup (ids (fst (rotate clocks db))) /\
  List.length (fst (rotate clocks db)) = List.length db.
Proof.
  intros Hk Hall Hlen Hclk.
  assert (Hrot : rotating u db).
  { split; [assumption|]. eapply Forall_impl; [|exact Hall].
    simpl. intros r [Hop Hl]. auto. }
  assert (Hun : unused u db = db).
  { unfold unused. apply filter_all. intros r Hin.
    rewrite Forall_forall in Hall. apply unstamped_true. now apply Hall. }
  destruct (rotate_distinct u clocks db Hrot Hclk) as (Hnd & Hl & _).
  - rewrite Hun, Hlen. apply le_n.
  - split; [assumption | congruence].
Qed.

Lemma rotation_witness :
  NoDup (ids (fst (rotate [tick 100; tick 200]
                     (map (with_last_use (Some 50)) two_proxies)))) /\
  List.length (fst (rotate [tick 100; tick 200]
                      (map (with_last_use (Some 50)) two_proxies))) = 2%nat.
Proof.
  apply (rotation (Some 50) [tick 100; tick 200]
           (map (with_last_use (Some 50)) two_proxies)).
  - unfold primary_key, two_proxies, ids; simpl.
    repeat constructor; simpl; intuition discriminate.
  - repeat constructor.
  - reflexivity.
  - repeat constructor; simpl; lia.
Defined.

(** C3 as stated fails: an advancing clock can be behind the [last_use]
    that the rows have. With [last_use] 100 on both rows and the readings
    50 and 60, the row stamped by the first call is the least recently
    used one for the second call too. *)
Lemma rotation_fails_behind_last_use :
  ~ (forall u c clocks db,
        primary_key db ->
        (2 <= List.length db)%nat ->
        Forall (fun r => operational r = true /\ last_use r = u /\
                         last_check r = c) db ->
        List.length clocks = List.length db ->
        advancing clocks ->
        NoDup (ids (fst (rotate clocks db)))).
Proof.
  intros H.
  specialize (H (Some 100) None [tick 50; tick 60]
                (map (with_last_use (Some 100)) two_proxies)).
  assert (Hnd : NoDup [1; 1]).
  { apply H.
    - unfold primary_key, two_proxies, ids; simpl.
      repeat constructor; simpl; intuition discriminate.
    - apply le_n.
    - repeat constructor.
    - reflexivity.
    - unfold advancing. repeat constructor. }
  inversion Hnd as [|? ? Hin _]. apply Hin. now left.
Qed.

Example rotate_two_proxies :
  ids (fst (rotate [tick 100; tick 200; tick 300] two_proxies)) = [1; 2; 1].
Proof. reflexivity. Qed.

(** A clock that does not move past the common [last_use] gives the same
    row twice. *)
Example rotate_needs_later_clock :
  ids (fst (rotate [tick 100; tick 100]
              [with_last_use (Some 100) proxy_a; with_last_use (Some 100) proxy_b]))
  = [1; 1].
Proof. reflexivity. Qed.

(** * Further properties of the code *)

(** ** [view_socks5] *)


(** ** [set_operational] *)

Lemma set_operational_update now db i b :
  set_operational now db i b
  = update_where_id i (with_health b (Some now)) db.
Proof.
  unfold set_operational. destruct (get db i) eqn:G; [reflexivity|].
  symmetry. apply update_where_id_absent. now apply get_none.
Qed.

(** X2. [set_operational] for a key that is not in the table leaves the
    table as it was. *)
Theorem set_operational_absent now db i b :
  ~ In i (ids db) -> set_operational now db i b = db.
Proof.
  intros Hn. unfold set_operational.
  apply get_none in Hn. now rewrite Hn.
Qed.

Lemma set_operational_absent_witness : set_operational 50 pool 7 false = pool.
Proof.
  apply (set_operational_absent 50 pool 7 false).
  unfold ids, pool; simpl. intuition discriminate.
Defined.

(** X3. Row by row, [set_operational] leaves every column but
    [operational] and [last_check] as it was, writes the flag and the time
    of the call into the row with the given key and leaves every other row
    as it was. *)
Theorem set_operational_frame now db i b :
  Forall2
    (fun r r' =>
       same_but_health r r' /\
       (id r = i -> operational r' = b /\ last_check r' = Some now) /\
       (id r <> i -> r' = r))
    db (set_operational now db i b).
Proof.
  rewrite set_operational_update. apply update_where_id_rows; intros r Hr.
  - split; [repeat split|]. split; [split; reflexivity | contradiction].
  - split; [repeat split|]. split; [contradiction | reflexivity].
Qed.

Lemma find_socks5_ids_in clock db co cc ci mn mx uu limit r :
  In r (fst (find_socks5 clock db co cc ci mn mx uu limit)) ->
  In (id r) (ids db).
Proof.
  unfold find_socks5.
  destruct (negb (is_empty (select_socks5 db co cc ci mn mx limit)) && uu); simpl.
  - intros H. apply in_map_iff in H. destruct H as (s' & <- & Hin).
    apply stamp_in in Hin. destruct Hin as (s & Hin & Hs).
    apply select_socks5_in in Hin. destruct Hin as [Hdb _].
    apply same_but_last_use_id in Hs.
    assert (E : id (refresh (commit (stamp clock 0
                  (select_socks5 db co cc ci mn mx limit)) db) s') = id s').
    { unfold refresh. destruct (get _ (id s')) as [r|] eqn:G; [|reflexivity].
      now apply get_some in G. }
    rewrite E, Hs. unfold ids. now apply in_map.
  - intros H. apply select_socks5_in in H. unfold ids. apply in_map, H.
Qed.

(** X4. Once [set_operational] has marked a key as not operational,
    [find_socks5] returns no row with that key, whatever the filters. *)
Theorem down_is_not_found clock now db i co cc ci mn mx uu limit r :
  primary_key db ->
  In r (fst (find_socks5 clock (set_operational now db i false)
               co cc ci mn mx uu limit)) ->
  id r <> i.
Proof.
  intros Hk H.
  apply find_socks5_origin in H;
    [|apply (exec_primary_key (SetOperational now i false)), Hk].
  destruct H as (s & Hs & Hp & Hsame).
  apply passes_operational in Hp. apply same_but_last_use_id in Hsame.
  rewrite Hsame. rewrite set_operational_update in Hs.
  apply in_update_where_id in Hs.
  destruct Hs as (r0 & _ & [[_ ->]|[Hne ->]]); [discriminate Hp | exact Hne].
Qed.

Lemma down_is_not_found_witness :
  id (with_last_use (Some 100) proxy_b) <> 1.
Proof.
  apply (down_is_not_found (tick 100) 50 pool 1 None None None None None true 1).
  - exact primary_key_pool.
  - simpl. left. reflexivity.
Defined.

(** ** [remove_socks5] *)



(** X6. After [remove_socks5] of a key, neither [list_socks5] nor
    [find_socks5] returns a row with that key. *)
Theorem removed_is_not_returned clock db i co cc ci mn mx uu limit r :
  (In r (list_socks5 (fst (remove_socks5 db i)) co cc ci limit) -> id r <> i) /\
  (In r (fst (find_socks5 clock (fst (remove_socks5 db i))
                co cc ci mn mx uu limit)) -> id r <> i).
Proof.
  pose proof (remove_socks5_gone db i) as Hgone.
  split; intros H E; apply Hgone.
  - rewrite list_socks5_filter in H. apply in_firstn, filter_In in H.
    unfold ids. apply in_map_iff. exists r. tauto.
  - apply find_socks5_ids_in in H. now rewrite E in H.
Qed.

(** ** [list_socks5] *)

Lemma length_filter_le {A : Type} (p : A -> bool) (l : list A) :
  (List.length (filter p l) <= List.length l)%nat.
Proof.
  induction l as [|x l IH]; simpl; [lia|]. destruct (p x); simpl; lia.
Qed.

(** X7. [list_socks5] returns at most [limit] rows, all of them rows of
    the table; without filters and with a limit that the table does not
    reach it returns the table, in scan order. *)
Theorem list_socks5_bounds db co cc ci limit :
  (List.length (list_socks5 db co cc ci limit) <= limit)%nat /\
  (forall r, In r (list_socks5 db co cc ci limit) -> In r db) /\
  ((List.length db <= limit)%nat -> list_socks5 db None None None limit = db).
Proof.
  split; [|split].
  - rewrite list_socks5_filter. apply firstn_le_length.
  - intros r H. rewrite list_socks5_filter in H.
    apply in_firstn, filter_In in H. tauto.
  - intros Hlen. unfold list_socks5. simpl. now apply firstn_all2.
Qed.

Lemma truthy_asks_str a p r :
  (forall v, a = Some v -> v <> ""%string -> p v r = true) ->
  asks_str a p r = true.
Proof.
  intros H. unfold asks_str. destruct a as [v|]; [|reflexivity].
  unfold truthy_str. destruct (String.eqb_spec v ""); simpl; [reflexivity|].
  now apply H.
Qed.

Lemma truthy_asks_float a p r :
  (forall v, a = Some v -> ~ (v == 0)%Q -> p v r = true) ->
  asks_float a p r = true.
Proof.
  intros H. unfold asks_float. destruct a as [v|]; [|reflexivity].
  unfold truthy_float. destruct (Qeq_bool v 0) eqn:E; simpl; [reflexivity|].
  apply H; [reflexivity|]. intros Hz. apply Qeq_bool_iff in Hz. congruence.
Qed.

Lemma truthy_equalities_asks co cc ci r :
  truthy_equalities co cc ci r ->
  asks_str co country_is r && asks_str cc country_code_is r
  && asks_str ci city_is r = true.
Proof.
  intros (H1 & H2 & H3). rewrite !andb_true_iff. repeat split.
  - apply truthy_asks_str. intros v Hv Hne. apply String.eqb_eq. auto.
  - apply truthy_asks_str. intros v Hv Hne. apply String.eqb_eq. auto.
  - apply truthy_asks_str. intros v Hv Hne. unfold city_is.
    rewrite (H3 v Hv Hne). apply String.eqb_refl.
Qed.

Lemma truthy_ranges_asks mn mx r :
  truthy_ranges mn mx r ->
  asks_float mn bandwidth_ge r && asks_float mx connect_time_le r = true.
Proof.
  intros (H1 & H2). rewrite andb_true_iff. split.
  - apply truthy_asks_float. intros v Hv Hne. unfold bandwidth_ge.
    destruct (H1 v Hv Hne) as (b & -> & Hle). now apply Qle_bool_iff.
  - apply truthy_asks_float. intros v Hv Hne. unfold connect_time_le.
    destruct (H2 v Hv Hne) as (c & -> & Hle). now apply Qle_bool_iff.
Qed.

(** X8. A row of the table that satisfies the equality predicate of each
    filter that is given and not empty is returned by [list_socks5] when
    the limit is not below the size of the table. *)
Theorem list_socks5_complete db co cc ci limit r :
  In r db ->
  truthy_equalities co cc ci r ->
  (List.length db <= limit)%nat ->
  In r (list_socks5 db co cc ci limit).
Proof.
  intros Hin Heq Hlen. rewrite list_socks5_filter.
  rewrite firstn_all2.
  - apply filter_In. split; [assumption | now apply truthy_equalities_asks].
  - etransitivity; [apply length_filter_le | assumption].
Qed.

Lemma list_socks5_complete_witness :
  In proxy_b (list_socks5 pool (Some "Germany"%string) (Some ""%string) None 500).
Proof.
  apply (list_socks5_complete pool (Some "Germany"%string) (Some ""%string)
           None 500 proxy_b).
  - simpl. right. left. reflexivity.
  - repeat split; intros v Hv Hne; try discriminate Hv.
    + injection Hv as <-. reflexivity.
    + injection Hv as <-. contradiction Hne. reflexivity.
  - simpl. repeat constructor.
Defined.

(** ** [find_socks5]: what is returned *)

Lemma refresh_id db s : id (refresh db s) = id s.
Proof.
  unfold refresh. destruct (get db (id s)) as [r|] eqn:G; [|reflexivity].
  now apply get_some in G.
Qed.

Lemma find_socks5_ids clock db co cc ci mn mx uu limit :
  ids (fst (find_socks5 clock db co cc ci mn mx uu limit))
  = ids (select_socks5 db co cc ci mn mx limit).
Proof.
  unfold find_socks5.
  destruct (negb (is_empty (select_socks5 db co cc ci mn mx limit)) && uu);
    simpl; [|reflexivity].
  unfold ids. rewrite map_map.
  rewrite (map_ext _ id (fun s => refresh_id _ s)).
  apply stamp_ids.
Qed.

Lemma passes_complete co cc ci mn mx r :
  operational r = true ->
  truthy_equalities co cc ci r -> truthy_ranges mn mx r ->
  passes co cc ci mn mx r = true.
Proof.
  intros Hop Heq Hrg. unfold passes.
  apply truthy_equalities_asks in Heq. apply truthy_ranges_asks in Hrg.
  rewrite Hop. simpl. rewrite Heq. simpl.
  apply andb_true_iff in Hrg. destruct Hrg as [-> ->]. reflexivity.
Qed.

Lemma length_order_by q : List.length (order_by q) = List.length q.
Proof. apply Permutation_length, order_by_perm. Qed.

(** X9. An operational row of the table that satisfies the predicate of
    each filter that is given and not empty or zero is among the rows
    returned by [find_socks5] when the limit is not below the size of the
    table. *)
Theorem find_socks5_complete clock db co cc ci mn mx uu limit r :
  In r db ->
  operational r = true ->
  truthy_equalities co cc ci r ->
  truthy_ranges mn mx r ->
  (List.length db <= limit)%nat ->
  In (id r) (ids (fst (find_socks5 clock db co cc ci mn mx uu limit))).
Proof.
  intros Hin Hop Heq Hrg Hlen. rewrite find_socks5_ids.
  unfold select_socks5. rewrite candidates_filter, firstn_all2.
  - unfold ids. apply in_map, in_order_by, filter_In.
    split; [assumption | now apply passes_complete].
  - rewrite length_order_by.
    etransitivity; [apply length_filter_le | assumption].
Qed.

Lemma find_socks5_complete_witness :
  In 2 (ids (fst (find_socks5 (tick 100) pool None (Some "DE"%string) None
                    (Some (10 # 1)%Q) None true 3))).
Proof.
  apply (find_socks5_complete (tick 100) pool None (Some "DE"%string) None
           (Some (10 # 1)%Q) None true 3 proxy_b).
  - simpl. right. left. reflexivity.
  - reflexivity.
  - repeat split; intros v Hv Hne; try discriminate Hv.
    injection Hv as <-. reflexivity.
  - split; intros v Hv Hne; try discriminate Hv.
    injection Hv as <-. exists (10 # 1)%Q. split; [reflexivity|].
    unfold Qle. simpl. lia.
  - simpl. repeat constructor.
Defined.

(** X10. [find_socks5] returns as many rows as pass the filters, up to
    [limit]. *)
Theorem find_socks5_count clock db co cc ci mn mx uu limit :
  List.length (fst (find_socks5 clock db co cc ci mn mx uu limit))
  = Nat.min limit (List.length (filter (passes co cc ci mn mx) db)).
Proof.
  rewrite <- (length_map id). fold (ids (fst (find_socks5 clock db co cc ci mn mx uu limit))).
  rewrite find_socks5_ids. unfold ids, select_socks5.
  now rewrite length_map, candidates_filter, length_firstn, length_order_by.
Qed.

(** X11. When no row passes the filters, or when [limit] is zero,
    [find_socks5] returns the empty list and leaves the table as it was,
    with [update_usage] on or off. *)
Theorem find_socks5_nothing_found clock db co cc ci mn mx uu limit :
  filter (passes co cc ci mn mx) db = [] \/ limit = 0%nat ->
  find_socks5 clock db co cc ci mn mx uu limit = ([], db).
Proof.
  intros H.
  assert (E : select_socks5 db co cc ci mn mx limit = []).
  { unfold select_socks5. rewrite candidates_filter.
    destruct H as [-> | ->]; [now destruct limit | reflexivity]. }
  unfold find_socks5. rewrite E. reflexivity.
Qed.

Lemma find_socks5_nothing_found_witness :
  find_socks5 (tick 100) pool (Some "Spain"%string) None None None None true 1
  = ([], pool).
Proof.
  apply (find_socks5_nothing_found (tick 100) pool (Some "Spain"%string)
           None None None None true 1).
  left. reflexivity.
Defined.

(** ** [find_socks5]: the usage stamp *)

Lemma commit_map objs db : commit objs db = map (commit_row objs) db.
Proof.
  unfold commit, commit_row. revert db.
  induction objs as [|s objs IH]; simpl; intros db.
  - symmetry. apply map_id.
  - rewrite IH. unfold update_where_id. now rewrite map_map.
Qed.

Lemma commit_row_id objs r : id (commit_row objs r) = id r.
Proof.
  unfold commit_row. revert r. induction objs as [|s objs IH]; simpl; intros r.
  - reflexivity.
  - rewrite IH. now destruct (id r =? id s).
Qed.

Lemma commit_row_miss objs r : ~ In (id r) (ids objs) -> commit_row objs r = r.
Proof.
  unfold commit_row, ids. revert r.
  induction objs as [|s objs IH]; simpl; intros r Hn; [reflexivity|].
  destruct (Z.eqb_spec (id r) (id s)) as [E|E].
  - exfalso. apply Hn. now left.
  - apply IH. intros Hin. apply Hn. now right.
Qed.

Lemma commit_row_hit objs r s :
  NoDup (ids objs) -> In s objs -> id r = id s ->
  commit_row objs r = with_last_use (last_use s) r.
Proof.
  unfold ids. revert r.
  induction objs as [|a objs IH]; simpl; intros r Hnd Hin E; [contradiction|].
  inversion Hnd as [|? ? Ha Hnd']; subst.
  unfold commit_row. simpl. fold (commit_row objs).
  destruct Hin as [->|Hin].
  - rewrite E, Z.eqb_refl. apply commit_row_miss.
    simpl. rewrite E. exact Ha.
  - destruct (Z.eqb_spec (id r) (id a)) as [Ea|Ea].
    + exfalso. apply Ha. rewrite <- Ea, E. now apply in_map.
    + now apply IH.
Qed.

Lemma commit_row_cases objs r :
  commit_row objs r = r \/
  exists s, In s objs /\ commit_row objs r = with_last_use (last_use s) r.
Proof.
  unfold commit_row. revert r.
  induction objs as [|a objs IH]; simpl; intros r; [now left|].
  destruct (Z.eqb_spec (id r) (id a)) as [E|E].
  - destruct (IH (with_last_use (last_use a) r)) as [H|(s & Hin & H)].
    + right. exists a. split; [now left | exact H].
    + right. exists s. split; [now right | exact H].
  - destruct (IH r) as [H|(s & Hin & H)].
    + now left.
    + right. exists s. split; [now right | exact H].
Qed.

Lemma get_map_keeping_id (f : Socks5 -> Socks5) db j :
  (forall r, id (f r) = id r) -> get (map f db) j = option_map f (get db j).
Proof.
  intros Hf. unfold get. induction db as [|r db IH]; simpl; [reflexivity|].
  rewrite Hf. destruct (id r =? j); simpl; auto.
Qed.

Lemma NoDup_firstn {A : Type} (n : nat) (l : list A) :
  NoDup l -> NoDup (firstn n l).
Proof.
  revert l. induction n as [|n IH]; intros [|x l] H; simpl; try constructor.
  - inversion H; subst. intros Hin. apply in_firstn in Hin. contradiction.
  - inversion H; subst. now apply IH.
Qed.

Lemma select_socks5_keys db co cc ci mn mx limit :
  primary_key db -> primary_key (select_socks5 db co cc ci mn mx limit).
Proof.
  intros Hk. unfold primary_key, ids, select_socks5.
  rewrite <- firstn_map. apply NoDup_firstn.
  rewrite candidates_filter.
  eapply Permutation_NoDup;
    [symmetry; apply Permutation_map, order_by_perm|].
  now apply NoDup_ids_filter.
Qed.

(** With the primary key, the rows read back after the commit are the
    stamped rows. *)
Lemma find_socks5_stamped clock db co cc ci mn mx limit :
  primary_key db ->
  find_socks5 clock db co cc ci mn mx true limit
  = (stamp clock 0 (select_socks5 db co cc ci mn mx limit),
     commit (stamp clock 0 (select_socks5 db co cc ci mn mx limit)) db).
Proof.
  intros Hk. unfold find_socks5. rewrite andb_true_r.
  destruct (select_socks5 db co cc ci mn mx limit) as [|s0 sel] eqn:Hsel;
    [reflexivity|].
  cbv beta iota delta [is_empty negb]. rewrite <- Hsel.
  set (stamped := stamp clock 0 (select_socks5 db co cc ci mn mx limit)).
  f_equal. transitivity (map (fun s : Socks5 => s) stamped); [|apply map_id].
  apply map_ext_in.
  intros s' Hin. unfold refresh. rewrite commit_map.
  rewrite get_map_keeping_id by apply commit_row_id.
  pose proof Hin as Hin'. apply stamp_in in Hin'.
  destruct Hin' as (s & Hs & Hsame).
  apply select_socks5_in in Hs. destruct Hs as [Hdb _].
  rewrite (same_but_last_use_id _ _ Hsame), (get_in db s Hk Hdb). simpl.
  rewrite (commit_row_hit stamped s s'); [symmetry; exact Hsame | | exact Hin |].
  - unfold stamped. rewrite stamp_ids. now apply select_socks5_keys.
  - symmetry. now apply same_but_last_use_id.
Qed.

Lemma stamp_nth clock k0 result k r :
  nth_error (stamp clock k0 result) k = Some r ->
  last_use r = Some (clock (k0 + k)%nat).
Proof.
  revert k0 k. induction result as [|s result IH]; intros k0 [|k]; simpl;
    try discriminate.
  - intros [= <-]. simpl. now rewrite Nat.add_0_r.
  - intros H. apply IH in H. now rewrite Nat.add_succ_r.
Qed.

(** X12. With [update_usage] on, the [k]-th row returned by [find_socks5]
    carries the [k]-th clock reading of the call as its [last_use], and it
    is the row that [view_socks5] finds under its key afterwards. *)
Theorem find_socks5_read_after_write clock db co cc ci mn mx limit k r :
  primary_key db ->
  nth_error (fst (find_socks5 clock db co cc ci mn mx true limit)) k = Some r ->
  last_use r = Some (clock k) /\
  view_socks5 (snd (find_socks5 clock db co cc ci mn mx true limit)) (id r)
  = Some r.
Proof.
  intros Hk. rewrite (find_socks5_stamped clock db co cc ci mn mx limit Hk).
  simpl. intros Hnth. split; [now apply stamp_nth in Hnth|].
  pose proof (nth_error_In _ _ Hnth) as Hin.
  pose proof Hin as Hin'. apply stamp_in in Hin'.
  destruct Hin' as (s & Hs & Hsame).
  apply select_socks5_in in Hs. destruct Hs as [Hdb _].
  unfold view_socks5. rewrite commit_map.
  rewrite get_map_keeping_id by apply commit_row_id.
  rewrite (same_but_last_use_id _ _ Hsame), (get_in db s Hk Hdb). simpl.
  rewrite (commit_row_hit _ s r); [now rewrite <- Hsame | | exact Hin |].
  - rewrite stamp_ids. now apply select_socks5_keys.
  - symmetry. now apply same_but_last_use_id.
Qed.

Lemma find_socks5_read_after_write_witness :
  last_use (with_last_use (Some 101) proxy_b) = Some (tick 100 1) /\
  view_socks5
    (snd (find_socks5 (tick 100) pool None None None None None true 2)) 2
  = Some (with_last_use (Some 101) proxy_b).
Proof.
  apply (find_socks5_read_after_write (tick 100) pool None None None None None
           2 1 (with_last_use (Some 101) proxy_b)).
  - exact primary_key_pool.
  - reflexivity.
Defined.

Lemma same_but_last_use_commit_row objs r :
  same_but_last_use (commit_row objs r) r.
Proof.
  destruct (commit_row_cases objs r) as [->|(s & _ & ->)].
  - apply same_but_last_use_refl.
  - apply same_but_last_use_stamp.
Qed.

Lemma Forall2_map_self {A : Type} (R : A -> A -> Prop) (f : A -> A) (l : list A) :
  (forall x, R x (f x)) -> Forall2 R l (map f l).
Proof.
  intros H. induction l as [|x l IH]; simpl; constructor; auto.
Qed.

(** X13. [find_socks5] changes no column but [last_use], and changes no
    row whose key is not among those of the rows it returns. *)
Theorem find_socks5_frame clock db co cc ci mn mx uu limit :
  Forall2
    (fun r r' =>
       same_but_last_use r' r /\
       (~ In (id r) (ids (fst (find_socks5 clock db co cc ci mn mx uu limit))) ->
        r' = r))
    db (snd (find_socks5 clock db co cc ci mn mx uu limit)).
Proof.
  rewrite find_socks5_ids. unfold find_socks5.
  destruct (negb (is_empty (select_socks5 db co cc ci mn mx limit)) && uu); simpl.
  - rewrite commit_map.
    rewrite <- (stamp_ids clock 0 (select_socks5 db co cc ci mn mx limit)).
    apply Forall2_map_self. intros r.
    split; [apply same_but_last_use_commit_row | apply commit_row_miss].
  - rewrite <- (map_id db) at 2. apply Forall2_map_self. intros r.
    split; [apply same_but_last_use_refl | reflexivity].
Qed.

(** ** What a call can do to a row *)

Lemma stamp_in_reading clock k0 result s :
  In s (stamp clock k0 result) -> exists k, last_use s = Some (clock k).
Proof.
  intros H. apply In_nth_error in H. destruct H as (k & H).
  apply stamp_nth in H. eauto.
Qed.

(** A row after a call, against the row with its key before the call. *)
Lemma exec_row c db r r' :
  primary_key db -> In r db -> In r' (exec c db) -> id r' = id r ->
  r' = r \/
  (exists clock co cc ci mn mx lim k,
      c = FindSocks5 clock co cc ci mn mx true lim /\
      r' = with_last_use (Some (clock k)) r) \/
  (exists now b,
      c = SetOperational now (id r) b /\ r' = with_health b (Some now) r) \/
  (exists v, c = SetConnectTime (id r) v /\ r' = with_connect_time (Some v) r) \/
  (exists v, c = SetApproxBandwidth (id r) v /\ r' = with_bandwidth (Some v) r).
Proof.
  intros Hk Hr Hr' Hid.
  assert (Hsame : forall r0, In r0 db -> id r' = id r0 -> r0 = r).
  { intros r0 H0 E. apply (primary_key_unique db); auto. congruence. }
  destruct c as [now h p co cc op ci u pw d | i | co cc ci lim | i
                 | clock co cc ci mn mx uu lim | rows | now i b | i v | i v];
    simpl in Hr'.
  - left. apply in_app_iff in Hr'. destruct Hr' as [Hin|[<-|[]]].
    + now apply Hsame.
    + exfalso. simpl in Hid. apply (next_id_fresh db).
      rewrite Hid. unfold ids. now apply in_map.
  - left. apply filter_In in Hr'. now apply Hsame.
  - left. now apply Hsame.
  - left. now apply Hsame.
  - destruct uu.
    + unfold find_socks5 in Hr'. rewrite andb_true_r in Hr'.
      destruct (negb (is_empty (select_socks5 db co cc ci mn mx lim)));
        simpl in Hr'; [|left; now apply Hsame].
      rewrite commit_map in Hr'. apply in_map_iff in Hr'.
      destruct Hr' as (r0 & <- & H0).
      rewrite commit_row_id in Hid. pose proof (Hsame r0 H0) as E.
      rewrite commit_row_id in E. specialize (E eq_refl). subst r0.
      destruct (commit_row_cases
                  (stamp clock 0 (select_socks5 db co cc ci mn mx lim)) r)
        as [->|(s & Hs & ->)]; [now left|].
      apply stamp_in_reading in Hs. destruct Hs as (k & ->).
      right. left. exists clock, co, cc, ci, mn, mx, lim, k. auto.
    + rewrite find_socks5_no_update in Hr'. left. now apply Hsame.
  - left. destruct (bulk_add_socks5_cases db rows) as [E|(E & _ & _ & Hf)];
      rewrite E in Hr'.
    + now apply Hsame.
    + apply in_insert_rows in Hr'. destruct Hr' as [Hin|Hin].
      * now apply Hsame.
      * exfalso. apply (Hf r' Hin).
        rewrite Hid. unfold ids. now apply in_map.
  - rewrite set_operational_update in Hr'. apply in_update_where_id in Hr'.
    destruct Hr' as (r0 & H0 & [[Hi ->]|[Hi ->]]);
      pose proof (Hsame r0 H0 eq_refl) as ->; [|now left].
    right. right. left. exists now, b. rewrite Hi. auto.
  - apply in_update_where_id in Hr'.
    destruct Hr' as (r0 & H0 & [[Hi ->]|[Hi ->]]);
      pose proof (Hsame r0 H0 eq_refl) as ->; [|now left].
    right. right. right. left. exists v. rewrite Hi. auto.
  - apply in_update_where_id in Hr'.
    destruct Hr' as (r0 & H0 & [[Hi ->]|[Hi ->]]);
      pose proof (Hsame r0 H0 eq_refl) as ->; [|now left].
    right. right. right. right. exists v. rewrite Hi. auto.
Qed.

Ltac exec_row_cases H :=
  destruct H as
    [-> | [(? & ? & ? & ? & ? & ? & ? & ? & ? & ->)
        | [(? & ? & ? & ->) | [(? & ? & ->) | (? & ? & ->)]]]].

(** X14. No call changes the key, host, port, country, country code,
    city, user name, password, time of insertion or description of a row
    that is in the table. *)
Theorem identity_columns_kept c db r r' :
  primary_key db -> In r db -> In r' (exec c db) -> id r' = id r ->
  same_identity r r'.
Proof.
  intros Hk Hr Hr' Hid.
  pose proof (exec_row c db r r' Hk Hr Hr' Hid) as H.
  exec_row_cases H; repeat split.
Qed.

Lemma identity_columns_kept_witness :
  same_identity proxy_a (with_health false (Some 50) proxy_a).
Proof.
  apply (identity_columns_kept (SetOperational 50 1 false) pool).
  - exact primary_key_pool.
  - simpl. left. reflexivity.
  - simpl. left. reflexivity.
  - reflexivity.
Defined.

(** X15. The [last_use] of a row that is in the table is changed only by
    [find_socks5] with [update_usage] on, and then it is a clock reading of
    that call: no call sets it back to null. *)
Theorem last_use_written_by_find c db r r' :
  primary_key db -> In r db -> In r' (exec c db) -> id r' = id r ->
  last_use r' <> last_use r ->
  exists clock co cc ci mn mx lim k,
    c = FindSocks5 clock co cc ci mn mx true lim /\
    last_use r' = Some (clock k).
Proof.
  intros Hk Hr Hr' Hid Hne.
  pose proof (exec_row c db r r' Hk Hr Hr' Hid) as H.
  destruct H as [-> | [(clock & co & cc & ci & mn & mx & lim & k & -> & ->)
                      | [(? & ? & ? & ->) | [(? & ? & ->) | (? & ? & ->)]]]];
    try (exfalso; apply Hne; reflexivity).
  exists clock, co, cc, ci, mn, mx, lim, k. split; reflexivity.
Qed.

Lemma last_use_written_by_find_witness :
  exists clock co cc ci mn mx lim k,
    FindSocks5 (tick 100) None None None None None true 1
    = FindSocks5 clock co cc ci mn mx true lim /\
    last_use (with_last_use (Some 100) proxy_a) = Some (clock k).
Proof.
  apply (last_use_written_by_find
           (FindSocks5 (tick 100) None None None None None true 1) pool proxy_a).
  - exact primary_key_pool.
  - simpl. left. reflexivity.
  - simpl. left. reflexivity.
  - reflexivity.
  - discriminate.
Defined.

(** X16. The [connect_time] of a row that is in the table is changed only
    by [set_connect_time] for its key, and its [bandwidth] only by
    [set_approx_bandwidth] for its key; the new value is the one passed. *)
Theorem measurements_written_by_setters c db r r' :
  primary_key db -> In r db -> In r' (exec c db) -> id r' = id r ->
  (connect_time r' <> connect_time r ->
   exists v, c = SetConnectTime (id r) v /\ connect_time r' = Some v) /\
  (bandwidth r' <> bandwidth r ->
   exists v, c = SetApproxBandwidth (id r) v /\ bandwidth r' = Some v).
Proof.
  intros Hk Hr Hr' Hid.
  pose proof (exec_row c db r r' Hk Hr Hr' Hid) as H.
  destruct H as [-> | [(? & ? & ? & ? & ? & ? & ? & ? & ? & ->)
                      | [(? & ? & ? & ->) | [(v & -> & ->) | (v & -> & ->)]]]];
    split; intros Hne; try (exfalso; apply Hne; reflexivity);
    exists v; split; reflexivity.
Qed.

Lemma measurements_written_by_setters_witness :
  (connect_time (with_connect_time (Some (1 # 2)%Q) proxy_a)
   <> connect_time proxy_a ->
   exists v, SetConnectTime 1 (1 # 2) = SetConnectTime (id proxy_a) v /\
             connect_time (with_connect_time (Some (1 # 2)%Q) proxy_a) = Some v)
  /\
  (bandwidth (with_connect_time (Some (1 # 2)%Q) proxy_a) <> bandwidth proxy_a ->
   exists v, SetConnectTime 1 (1 # 2) = SetApproxBandwidth (id proxy_a) v /\
             bandwidth (with_connect_time (Some (1 # 2)%Q) proxy_a) = Some v).
Proof.
  apply (measurements_written_by_setters (SetConnectTime 1 (1 # 2)) pool).
  - exact primary_key_pool.
  - simpl. left. reflexivity.
  - simpl. left. reflexivity.
  - reflexivity.
Defined.

(** ** The keys of the table *)

(** X17. Only [add_socks5], [bulk_add_socks5] and [remove_socks5] change
    the keys of the table: after any other call the table has the same
    keys in the same order. *)
Theorem keys_kept c db :
  changes_keys c = false -> ids (exec c db) = ids db.
Proof.
  destruct c as [now h p co cc op ci u pw d | i | co cc ci lim | i
                 | clock co cc ci mn mx uu lim | rows | now i b | i v | i v];
    simpl; intros H; try discriminate H; try reflexivity.
  - unfold find_socks5.
    destruct (negb (is_empty _) && uu); simpl; [apply commit_ids | reflexivity].
  - rewrite set_operational_update. now apply ids_update_where_id.
  - now apply ids_update_where_id.
  - now apply ids_update_where_id.
Qed.

Lemma keys_kept_witness :
  ids (exec (FindSocks5 (tick 100) None None None None None true 2) pool)
  = [1; 2; 3].
Proof.
  apply (keys_kept (FindSocks5 (tick 100) None None None None None true 2) pool).
  reflexivity.
Defined.

(** X18. In a table reached by calls from the empty table no two rows
    have the same key, and this stays so after one more call. *)
Theorem keys_pairwise_distinct db :
  reachable db ->
  NoDup (ids db) /\ (forall c, NoDup (ids (exec c db))).
Proof.
  intros H. apply reachable_primary_key in H. split; [exact H|].
  intros c. now apply exec_primary_key.
Qed.

Lemma keys_pairwise_distinct_witness :
  NoDup (ids pool) /\ (forall c, NoDup (ids (exec c pool))).
Proof. exact (keys_pairwise_distinct pool reachable_pool). Defined.

(** ** Measurements and selection *)

(** X19. After [set_connect_time] has stored a connect time above a
    non-zero [max_connect_time], [find_socks5] with that maximum returns no
    row with that key. *)
Theorem slow_is_not_found clock db i v m co cc ci mn uu limit r :
  primary_key db ->
  ~ (m == 0)%Q ->
  (m < v)%Q ->
  In r (fst (find_socks5 clock (set_connect_time db i v)
               co cc ci mn (Some m) uu limit)) ->
  id r <> i.
Proof.
  intros Hk Hm Hlt H.
  apply find_socks5_origin in H;
    [|apply (exec_primary_key (SetConnectTime i v)), Hk].
  destruct H as (s & Hs & Hp & Hsame).
  apply passes_truthy in Hp. destruct Hp as [_ [_ Hmax]].
  destruct (Hmax m eq_refl Hm) as (c & Hc & Hle).
  rewrite (same_but_last_use_id _ _ Hsame).
  apply in_update_where_id in Hs.
  destruct Hs as (r0 & _ & [[_ ->]|[Hne ->]]); [|exact Hne].
  simpl in Hc. injection Hc as <-.
  exfalso. now apply (Qlt_not_le m v).
Qed.

Lemma slow_is_not_found_witness :
  id (with_last_use (Some 100) proxy_b) <> 1.
Proof.
  apply (slow_is_not_found (tick 100) pool 1 (2 # 1) (1 # 1)
           None None None None true 1).
  - exact primary_key_pool.
  - intros H. discriminate H.
  - reflexivity.
  - simpl. left. reflexivity.
Defined.

(** X20. After [set_approx_bandwidth] has stored a bandwidth below a
    non-zero [min_mbps_down], [find_socks5] with that minimum returns no
    row with that key. *)
Theorem narrow_is_not_found clock db i v m co cc ci mx uu limit r :
  primary_key db ->
  ~ (m == 0)%Q ->
  (v < m)%Q ->
  In r (fst (find_socks5 clock (set_approx_bandwidth db i v)
               co cc ci (Some m) mx uu limit)) ->
  id r <> i.
Proof.
  intros Hk Hm Hlt H.
  apply find_socks5_origin in H;
    [|apply (exec_primary_key (SetApproxBandwidth i v)), Hk].
  destruct H as (s & Hs & Hp & Hsame).
  apply passes_truthy in Hp. destruct Hp as [_ [Hmin _]].
  destruct (Hmin m eq_refl Hm) as (b & Hb & Hle).
  rewrite (same_but_last_use_id _ _ Hsame).
  apply in_update_where_id in Hs.
  destruct Hs as (r0 & _ & [[_ ->]|[Hne ->]]); [|exact Hne].
  simpl in Hb. injection Hb as <-.
  exfalso. now apply (Qlt_not_le v m).
Qed.

Lemma narrow_is_not_found_witness :
  id (with_last_use (Some 100) proxy_b) <> 1.
Proof.
  apply (narrow_is_not_found (tick 100) pool 1 (1 # 1) (5 # 1)
           None None None None true 1).
  - exact primary_key_pool.
  - intros H. discriminate H.
  - reflexivity.
  - simpl. left. reflexivity.
Defined.

(** X21. Of two [set_connect_time] for one key the later value is the one
    stored, likewise for [set_approx_bandwidth]; and the two kinds of
    update can be made in either order. *)
Theorem setters_compose db i j v w :
  set_connect_time (set_connect_time db i v) i w = set_connect_time db i w /\
  set_approx_bandwidth (set_approx_bandwidth db i v) i w
  = set_approx_bandwidth db i w /\
  set_connect_time (set_approx_bandwidth db i v) j w
  = set_approx_bandwidth (set_connect_time db j w) i v.
Proof.
  unfold set_connect_time, set_approx_bandwidth, update_where_id.
  rewrite !map_map. repeat split; apply map_ext; intros r.
  - destruct (id r =? i) eqn:E; simpl; rewrite E; reflexivity.
  - destruct (id r =? i) eqn:E; simpl; rewrite E; reflexivity.
  - destruct (id r =? i) eqn:E, (id r =? j) eqn:F; simpl;
      rewrite ?E, ?F; reflexivity.
Qed.

(** ** Inserting rows *)

Lemma get_app db rows j :
  get (db ++ rows) j
  = match get db j with
    | Some r => Some r
    | None => get rows j
    end.
Proof.
  unfold get. induction db as [|r db IH]; simpl; [reflexivity|].
  destruct (id r =? j); [reflexivity | exact IH].
Qed.

(** X22. [add_socks5] leaves every row of the table to be found by
    [view_socks5] under its key, as it was. *)
Theorem add_socks5_keeps_rows now db h p co cc op ci u pw d j r :
  view_socks5 db j = Some r ->
  view_socks5 (fst (add_socks5 now db h p co cc op ci u pw d)) j = Some r.
Proof.
  unfold view_socks5, add_socks5. simpl. intros H. now rewrite get_app, H.
Qed.

Lemma add_socks5_keeps_rows_witness :
  view_socks5
    (fst (add_socks5 20 pool "10.0.0.1" 1080 "Spain" "ES" false
            None None None None)) 2
  = Some proxy_b.
Proof.
  apply (add_socks5_keeps_rows 20 pool "10.0.0.1" 1080 "Spain" "ES" false
           None None None None 2 proxy_b).
  reflexivity.
Defined.

Lemma get_insert_by_id_other r db j :
  id r <> j -> get (insert_by_id r db) j = get db j.
Proof.
  intros Hne. unfold get.
  induction db as [|s db IH]; simpl.
  - destruct (Z.eqb_spec (id r) j); [contradiction | reflexivity].
  - destruct (id r <? id s); simpl.
    + destruct (Z.eqb_spec (id r) j); [contradiction | reflexivity].
    + destruct (id s =? j); [reflexivity | exact IH].
Qed.

Lemma get_insert_by_id_new r db :
  ~ In (id r) (ids db) -> get (insert_by_id r db) (id r) = Some r.
Proof.
  unfold get, ids. induction db as [|s db IH]; simpl; intros Hn.
  - now rewrite Z.eqb_refl.
  - destruct (id r <? id s); simpl.
    + now rewrite Z.eqb_refl.
    + destruct (Z.eqb_spec (id s) (id r)) as [E|E].
      * exfalso. apply Hn. now left.
      * apply IH. intros Hin. apply Hn. now right.
Qed.

Lemma get_insert_rows_other rows db j :
  ~ In j (ids rows) -> get (insert_rows rows db) j = get db j.
Proof.
  unfold insert_rows, ids. revert db.
  induction rows as [|r rows IH]; simpl; intros db Hn; [reflexivity|].
  rewrite IH by (intros Hin; apply Hn; now right).
  apply get_insert_by_id_other. intros E. apply Hn. now left.
Qed.

Lemma get_insert_rows_new rows db r :
  primary_key rows -> In r rows -> ~ In (id r) (ids db) ->
  get (insert_rows rows db) (id r) = Some r.
Proof.
  unfold primary_key, ids. revert db.
  induction rows as [|a rows IH]; simpl; intros db Hd Hin Hn; [contradiction|].
  inversion Hd as [|? ? Ha Hd']; subst.
  change (fold_left (fun d r0 => insert_by_id r0 d) rows (insert_by_id a db))
    with (insert_rows rows (insert_by_id a db)).
  destruct Hin as [->|Hin].
  - rewrite get_insert_rows_other by exact Ha.
    now apply get_insert_by_id_new.
  - apply IH; auto. intros Hin'.
    apply (Permutation_in _ (Permutation_map id (insert_by_id_perm a db))) in Hin'.
    destruct Hin' as [E|Hin']; [|contradiction].
    apply Ha. rewrite E. now apply in_map.
Qed.

(** X23. [bulk_add_socks5] of an empty list returns [False] and inserts
    nothing. When [bulk_add_socks5] returns [True], the table is made of
    the rows it had and the rows of the list, every row it had is found
    under its key as it was, and every row of the list is found under its
    own key. *)
Theorem bulk_add_socks5_inserted db rows :
  bulk_add_socks5 db [] = (db, false) /\
  (snd (bulk_add_socks5 db rows) = true ->
   Permutation (fst (bulk_add_socks5 db rows)) (db ++ rows) /\
   (forall j r, view_socks5 db j = Some r ->
                view_socks5 (fst (bulk_add_socks5 db rows)) j = Some r) /\
   (forall r, In r rows ->
              view_socks5 (fst (bulk_add_socks5 db rows)) (id r) = Some r)).
Proof.
  split; [reflexivity|]. intros Htrue.
  assert (H : fst (bulk_add_socks5 db rows) = insert_rows rows db /\
              primary_key rows /\
              forall r, In r rows -> ~ In (id r) (ids db)).
  { unfold bulk_add_socks5 in *. destruct rows as [|r0 rows]; [discriminate|].
    destruct (fresh_keys db (r0 :: rows) && distinct_keys (r0 :: rows)) eqn:E;
      [|discriminate].
    apply andb_prop in E. destruct E as [E1 E2].
    split; [reflexivity|].
    split; [now apply distinct_keys_spec | now apply fresh_keys_spec]. }
  destruct H as (-> & Hd & Hf). unfold view_socks5.
  split; [apply insert_rows_perm|]. split.
  - intros j r G. rewrite get_insert_rows_other; [exact G|].
    intros Hin. unfold ids in Hin. apply in_map_iff in Hin.
    destruct Hin as (x & <- & Hx). apply (Hf x Hx).
    apply get_some in G. destruct G as [Hr E]. rewrite <- E.
    unfold ids. now apply in_map.
  - intros r Hin. apply get_insert_rows_new; auto.
Qed.

Lemma bulk_add_socks5_inserted_witness :
  view_socks5 (fst (bulk_add_socks5 [proxy_c] two_proxies)) 2 = Some proxy_b /\
  fst (bulk_add_socks5 [proxy_c] two_proxies) = pool.
Proof.
  split; [|reflexivity].
  apply (proj2 (proj2 (proj2 (bulk_add_socks5_inserted [proxy_c] two_proxies)
                         eq_refl)) proxy_b).
  simpl. right. left. reflexivity.
Defined.

(** ** The row that is handed out first *)

Lemma earlier_asym a b : earlier a b -> ~ earlier b a.
Proof.
  intros H G. apply (earlier_irrefl a). eapply earlier_trans; eauto.
Qed.

(** X24. The first row returned by [find_socks5] is a row of the table
    that passes the filters and is least recently used among those: no
    passing row has an earlier [last_use], null counting as earliest, and
    no passing row with the same [last_use] has a later [last_check]. *)
Theorem find_socks5_least_recently_used clock db co cc ci mn mx uu limit i rest :
  ids (fst (find_socks5 clock db co cc ci mn mx uu limit)) = i :: rest ->
  exists h,
    In h db /\ id h = i /\ passes co cc ci mn mx h = true /\
    forall x, In x db -> passes co cc ci mn mx x = true ->
              ~ earlier (last_use x) (last_use h) /\
              (last_use x = last_use h ->
               ~ earlier (last_check h) (last_check x)).
Proof.
  rewrite find_socks5_ids. unfold select_socks5. rewrite candidates_filter.
  pose proof (order_by_sorted (filter (passes co cc ci mn mx) db)) as Hs.
  pose proof (in_order_by (filter (passes co cc ci mn mx) db)) as Hin.
  destruct (order_by (filter (passes co cc ci mn mx) db)) as [|h tail];
    [destruct limit; discriminate|].
  destruct limit as [|limit]; [discriminate|].
  simpl. intros [= Hi _]. exists h.
  assert (Hh : In h db /\ passes co cc ci mn mx h = true)
    by (apply filter_In, Hin; now left).
  destruct Hh as [Hdb Hp]. split; [assumption|]. split; [assumption|].
  split; [assumption|].
  intros x Hx Hpx.
  assert (Hxin : In x (h :: tail)) by (apply Hin, filter_In; auto).
  apply StronglySorted_inv in Hs. destruct Hs as [_ Hs].
  rewrite Forall_forall in Hs.
  destruct Hxin as [<-|Hxin].
  - split; [apply earlier_irrefl | intros _; apply earlier_irrefl].
  - destruct (Hs x Hxin) as [Hlt|[Heq Hge]].
    + split; [now apply earlier_asym|].
      intros E. rewrite E in Hlt. now apply earlier_irrefl in Hlt.
    + split; [rewrite Heq; apply earlier_irrefl | intros _; exact Hge].
Qed.

Lemma find_socks5_least_recently_used_witness :
  exists h,
    In h pool /\ id h = 1 /\ passes None None None None None h = true /\
    forall x, In x pool -> passes None None None None None x = true ->
              ~ earlier (last_use x) (last_use h) /\
              (last_use x = last_use h ->
               ~ earlier (last_check h) (last_check x)).
Proof.
  apply (find_socks5_least_recently_used (tick 100) pool None None None None None
           true 2 1 [2]).
  reflexivity.
Defined.

(** ** [to_dict] *)

Lemma exported_not_datetime strftime v :
  is_datetime (exported strftime v) = false.
Proof. destruct v; reflexivity. Qed.

(** X25. The dict made by [to_dict] has one item for each column, in the
    order of the columns, and none of its values is a [datetime]: a time
    stamp is there as the string made by [strftime]. *)
Theorem to_dict_shape strftime s :
  map fst (to_dict strftime s) = columns /\
  Forall (fun item => is_datetime (snd item) = false) (to_dict strftime s) /\
  In ("added_on"%string, PyStr (strftime (added_on s))) (to_dict strftime s).
Proof.
  split; [reflexivity|]. split.
  - unfold to_dict. apply Forall_map. apply Forall_forall.
    intros item _. apply exported_not_datetime.
  - unfold to_dict, attributes. simpl. do 8 right. left. reflexivity.
Qed.

Lemma exported_str strftime (a b : option string) :
  exported strftime (nullable PyStr a) = exported strftime (nullable PyStr b) ->
  a = b.
Proof. destruct a, b; simpl; congruence. Qed.

Lemma exported_float strftime (a b : option Q) :
  exported strftime (nullable PyFloat a) = exported strftime (nullable PyFloat b) ->
  a = b.
Proof. destruct a, b; simpl; congruence. Qed.

Lemma exported_datetime strftime (a b : option datetime) :
  exported strftime (nullable PyDateTime a)
  = exported strftime (nullable PyDateTime b) ->
  option_map strftime a = option_map strftime b.
Proof. destruct a, b; simpl; congruence. Qed.

(** X26. Two rows with the same [to_dict] agree on every column that is
    not a time stamp, and their time stamps have the same [strftime]
    string, a null time stamp being matched by a null one only. *)
Theorem to_dict_determines strftime s s' :
  to_dict strftime s = to_dict strftime s' ->
  (id s = id s' /\ host s = host s' /\ port s = port s' /\
   country s = country s' /\ country_code s = country_code s' /\
   city s = city s' /\ username s = username s' /\ password s = password s' /\
   operational s = operational s' /\ bandwidth s = bandwidth s' /\
   connect_time s = connect_time s' /\ description s = description s') /\
  strftime (added_on s) = strftime (added_on s') /\
  option_map strftime (last_use s) = option_map strftime (last_use s') /\
  option_map strftime (last_check s) = option_map strftime (last_check s').
Proof.
  unfold to_dict, attributes. cbn [map fst snd]. intros H.
  injection H as Hid Hhost Hport Hco Hcc Hci Hu Hpw Hadd Hlu Hlc Hop Hbw Hct Hd.
  apply exported_str in Hci, Hu, Hpw, Hd.
  apply exported_float in Hbw, Hct.
  apply exported_datetime in Hlu, Hlc.
  simpl in Hid, Hhost, Hport, Hco, Hcc, Hadd, Hop.
  repeat split; congruence.
Qed.

Lemma to_dict_determines_witness :
  bandwidth proxy_a = Some (50 # 1)%Q /\
  (fun _ : datetime => "2017-01-01 00:00:00"%string) (added_on proxy_a)
  = (fun _ : datetime => "2017-01-01 00:00:00"%string) 99.
Proof.
  pose proof
    (to_dict_determines (fun _ => "2017-01-01 00:00:00"%string) proxy_a
       (mkSocks5 1 "1.2.3.4" 1080 "Germany" "DE" None None None
          99 None None true (Some (50 # 1)%Q) (Some (1 # 5)%Q) None)
       eq_refl) as H.
  split; [apply H | apply H].
Defined.
